(** * streamlit_app.py: credential resolution, agent invocation, response
      extraction and session history of the PixPod chat page.

    The Python module is embedded shallowly.  Python [str] values are
    sequences of Unicode code points, [bytes] values are sequences of
    octets, dictionaries are finite maps, exceptions are an inductive type
    and code that can raise returns a [result].  Calls that leave the
    module for the outside world (boto3, the Bedrock service, Streamlit's
    status boxes) are recorded in a trace, in program order. *)

From Stdlib Require Import List NArith Lia Bool String Ascii.
From Stdlib.Strings Require Import Byte.
From stdpp Require Import base option list strings gmap.

Local Open Scope N_scope.

(** ** Python values *)

(** [bytes]: a sequence of octets. *)
Definition bytes := list byte.

(** [str]: a sequence of Unicode code points. *)
Definition str := list N.

(** An ASCII literal of the source, as a [str]. *)
Fixpoint lit (s : string) : str :=
  match s with
  | EmptyString => []
  | String a s' => N_of_ascii a :: lit s'
  end.
Arguments lit : simpl never.

(** U+274C, the cross mark that opens every error message of
    [generate_response]. *)
Definition cross_mark : N := 0x274C.

(** Truthiness of a value that is [None] or a [str]. *)
Definition truthy (v : option str) : bool :=
  match v with
  | Some (_ :: _) => true
  | _ => false
  end.

(** *** [bytes.decode('utf8')]

    The strict decoder: shortest forms only, no surrogates, nothing above
    U+10FFFF.  [None] stands for the [UnicodeDecodeError] the call raises. *)

Definition is_cont (b : N) : bool := (0x80 <=? b) && (b <=? 0xBF).

Definition cont_bits (b : N) : N := N.land b 0x3F.

(** The range allowed for the byte after a three-byte lead [b0]. *)
Definition second_ok3 (b0 b1 : N) : bool :=
  if b0 =? 0xE0 then (0xA0 <=? b1) && (b1 <=? 0xBF)
  else if b0 =? 0xED then (0x80 <=? b1) && (b1 <=? 0x9F)
  else is_cont b1.

(** The range allowed for the byte after a four-byte lead [b0]. *)
Definition second_ok4 (b0 b1 : N) : bool :=
  if b0 =? 0xF0 then (0x90 <=? b1) && (b1 <=? 0xBF)
  else if b0 =? 0xF4 then (0x80 <=? b1) && (b1 <=? 0x8F)
  else is_cont b1.

Fixpoint utf8_decode (bs : bytes) : option str :=
  match bs with
  | [] => Some []
  | c0 :: t0 =>
    let b0 := Byte.to_N c0 in
    if b0 <? 0x80 then cons b0 <$> utf8_decode t0
    else if (0xC2 <=? b0) && (b0 <=? 0xDF) then
      match t0 with
      | c1 :: t1 =>
        let b1 := Byte.to_N c1 in
        if is_cont b1
        then cons (N.land b0 0x1F * 64 + cont_bits b1) <$> utf8_decode t1
        else None
      | _ => None
      end
    else if (0xE0 <=? b0) && (b0 <=? 0xEF) then
      match t0 with
      | c1 :: c2 :: t2 =>
        let b1 := Byte.to_N c1 in
        let b2 := Byte.to_N c2 in
        if second_ok3 b0 b1 && is_cont b2
        then cons (N.land b0 0x0F * 4096 + cont_bits b1 * 64 + cont_bits b2)
               <$> utf8_decode t2
        else None
      | _ => None
      end
    else if (0xF0 <=? b0) && (b0 <=? 0xF4) then
      match t0 with
      | c1 :: c2 :: c3 :: t3 =>
        let b1 := Byte.to_N c1 in
        let b2 := Byte.to_N c2 in
        let b3 := Byte.to_N c3 in
        if second_ok4 b0 b1 && is_cont b2 && is_cont b3
        then cons (N.land b0 0x07 * 262144 + cont_bits b1 * 4096
                   + cont_bits b2 * 64 + cont_bits b3)
               <$> utf8_decode t3
        else None
      | _ => None
      end
    else None
  end.

(** ** Events of the response stream *)

(** A leaf value inside an event. *)
Inductive pyval :=
| VBytes (b : bytes)
| VStr (s : str).

(** An event of the completion stream is a dictionary from the event kind
    (["chunk"], ["trace"], ...) to that kind's payload, itself a
    dictionary. *)
Abbreviation payload := (gmap string pyval).
Abbreviation event := (gmap string payload).

(** ** Exceptions *)

(** Instances of Python's [Exception] class, as far as the module tells
    them apart.  [ClientError] carries [response['Error']['Code']] and
    [response['Error']['Message']], which botocore fills in for every
    service error.  [PyException msg arg] is [Exception(msg, arg)]. *)
Inductive exn :=
| ClientError (Code Message : str)
| NoCredentialsError
| KeyError (key : string)
| AttributeError (attr : string)
| UnicodeDecodeError (object : bytes)
| PyException (msg : str) (arg : exn_arg)
| OtherException (cls : string) (text : str)
with exn_arg :=
| ArgEvent (ev : event)
| ArgExn (e : exn).

(** The outcome of a call: a value, or an exception on its way up. *)
Inductive result (A : Type) :=
| Returned (a : A)
| Raised (e : exn).
Arguments Returned {A} a.
Arguments Raised {A} e.

Definition rbind {A B} (m : result A) (k : A -> result B) : result B :=
  match m with
  | Returned a => k a
  | Raised e => Raised e
  end.

Notation "'let!' x ':=' m 'in' k" := (rbind m (fun x => k))
  (at level 10, x name, m at level 100, k at level 200, only parsing).

(** [d[key]] on a dictionary. *)
Definition getitem {V} (d : gmap string V) (key : string) : result V :=
  match d !! key with
  | Some v => Returned v
  | None => Raised (KeyError key)
  end.

(** [data.decode('utf8')]: only [bytes] has the method. *)
Definition decode_utf8 (data : pyval) : result str :=
  match data with
  | VBytes b =>
    match utf8_decode b with
    | Some s => Returned s
    | None => Raised (UnicodeDecodeError b)
    end
  | VStr _ => Raised (AttributeError "decode")
  end.

(** ** The event stream and the [for] loop over it *)

(** What one [next()] on the stream's iterator gives: an event, or an
    exception raised while reading the stream.  The end of the list is
    [StopIteration]. *)
Inductive item :=
| Yield (ev : event)
| IterRaise (e : exn).

Definition event_stream := list item.

(** The response of [invoke_agent]. *)
Record response := { completion : event_stream }.

(** How one run of a loop body ends when it does not raise. *)
Inductive flow (A : Type) :=
| Next
| Return (a : A).
Arguments Next {A}.
Arguments Return {A} a.

(** [for event in it: body].  The result is [Some a] when the body
    executed [return a], [None] when the iterator ran out; the second
    component is what is left in the iterator. *)
Fixpoint for_in {A} (body : event -> result (flow A)) (it : event_stream)
  : result (option A) * event_stream :=
  match it with
  | [] => (Returned None, [])
  | IterRaise e :: rest => (Raised e, rest)
  | Yield ev :: rest =>
    match body ev with
    | Returned Next => for_in body rest
    | Returned (Return a) => (Returned (Some a), rest)
    | Raised e => (Raised e, rest)
    end
  end.

(** ** [process_response] *)

Definition unexpected_event : str := lit "unexpected event.".

(** The body of the loop, lines 83-88. *)
Definition process_response_body (ev : event) : result (flow str) :=
  match ev !! "chunk"%string with
  | Some chunk =>
    let! data := getitem chunk "bytes" in
    let! agent_answer := decode_utf8 data in
    Returned (Return agent_answer)
  | None => Raised (PyException unexpected_event (ArgEvent ev))
  end.

(** Lines 78-90.  A function that falls off its end returns [None]; the
    [except] clause wraps whatever the [try] block raised. *)
Definition process_response (resp : response)
  : result (option str) * event_stream :=
  let event_stream := completion resp in
  match for_in process_response_body event_stream with
  | (Raised e, rest) => (Raised (PyException unexpected_event (ArgExn e)), rest)
  | (Returned v, rest) => (Returned v, rest)
  end.

(** ** Strings of the module *)

Fixpoint str_eqb (a b : str) : bool :=
  match a, b with
  | [], [] => true
  | x :: a', y :: b' => (x =? y) && str_eqb a' b'
  | _, _ => false
  end.

Definition msg_no_response : str := lit "No response received".

Definition msg_access_denied : str :=
  cross_mark :: lit " Access denied. Check your AWS permissions for Bedrock.".

Definition msg_agent_not_found : str :=
  cross_mark :: lit " Agent not found. Check your Agent ID and Alias ID.".

Definition msg_aws_error (message : str) : str :=
  cross_mark :: lit " AWS Error: " ++ message.

Definition msg_no_credentials : str :=
  cross_mark :: lit " AWS credentials not found. Please configure credentials.".

Definition msg_unexpected (text : str) : str :=
  cross_mark :: lit " Unexpected error: " ++ text.

(** U+2705, the check mark of the success boxes. *)
Definition check_mark : N := 0x2705.

(** ** [datetime.isoformat] and [json.dumps] *)

(** A naive [datetime], as [datetime.now()] returns it. *)
Record datetime := {
  year : N; month : N; day : N;
  hour : N; minute : N; second : N; microsecond : N
}.

(** The character of the last decimal digit of [n]. *)
Definition digit_char (n : N) : N := 48 + n mod 10.
Arguments digit_char : simpl never.

(** The decimal digits of [n], zero-padded to [width] places. *)
Fixpoint zpad (width : nat) (n : N) : str :=
  match width with
  | O => []
  | S k => zpad k (n / 10) ++ [digit_char n]
  end.

(** [d.isoformat()]: [YYYY-MM-DDTHH:MM:SS], then [.ffffff] when the
    microsecond is not zero. *)
Definition isoformat (d : datetime) : str :=
  zpad 4 (year d) ++ lit "-" ++ zpad 2 (month d) ++ lit "-" ++ zpad 2 (day d)
  ++ lit "T"
  ++ zpad 2 (hour d) ++ lit ":" ++ zpad 2 (minute d) ++ lit ":"
  ++ zpad 2 (second d)
  ++ (if microsecond d =? 0 then [] else lit "." ++ zpad 6 (microsecond d)).

(** The values [json.dumps] is given by this module. *)
#[local] Set Warnings "-register-all".
Inductive json :=
| JString (s : str)
| JArray (items : list json)
| JObject (members : list (str * json)).

Definition hex_digit (n : N) : N :=
  let d := n mod 16 in
  if d <? 10 then 48 + d else 87 + d.

(** [\uXXXX] with four lower-case hexadecimal digits. *)
Definition u_escape (n : N) : str :=
  lit "\u" ++ [hex_digit (n / 4096); hex_digit (n / 256);
               hex_digit (n / 16); hex_digit n].

(** One character of a string under [ensure_ascii=True]. *)
Definition escape_char (c : N) : str :=
  if c =? 0x22 then [0x5C; 0x22]
  else if c =? 0x5C then lit "\\"
  else if c =? 0x0A then lit "\n"
  else if c =? 0x0D then lit "\r"
  else if c =? 0x09 then lit "\t"
  else if c =? 0x08 then lit "\b"
  else if c =? 0x0C then lit "\f"
  else if (0x20 <=? c) && (c <=? 0x7E) then [c]
  else if c <? 0x10000 then u_escape c
  else
    let n := c - 0x10000 in
    u_escape (N.lor 0xD800 (N.land (N.shiftr n 10) 0x3FF))
    ++ u_escape (N.lor 0xDC00 (N.land n 0x3FF)).

Definition quote : N := 0x22.

Definition encode_string (s : str) : str :=
  quote :: flat_map escape_char s ++ [quote].

(** A line break followed by [indent * level] spaces, with [indent=2]. *)
Definition newline_indent (level : nat) : str :=
  10 :: repeat 32 (2 * level).

(** [sep.join(parts)]. *)
Fixpoint join (sep : str) (parts : list str) : str :=
  match parts with
  | [] => []
  | [x] => x
  | x :: rest => x ++ sep ++ join sep rest
  end.

(** [json.dumps(j, indent=2)] at nesting depth [level]. *)
Fixpoint dumps_at (level : nat) (j : json) : str :=
  match j with
  | JString s => encode_string s
  | JArray [] => lit "[]"
  | JArray items =>
    lit "[" ++ newline_indent (S level)
    ++ join (lit "," ++ newline_indent (S level))
         (map (dumps_at (S level)) items)
    ++ newline_indent level ++ lit "]"
  | JObject [] => lit "{}"
  | JObject members =>
    lit "{" ++ newline_indent (S level)
    ++ join (lit "," ++ newline_indent (S level))
         (map (fun kv => match kv with
                         | (k, v) => encode_string k ++ lit ": " ++ dumps_at (S level) v
                         end) members)
    ++ newline_indent level ++ lit "}"
  end.

Definition json_dumps (j : json) : str := dumps_at 0 j.

(** ** Reading a document back

    A reader for JSON text, after [json.loads]: strings with their
    escapes, arrays and objects, white space between the tokens.  It is
    written from the grammar, not from [dumps_at], and is what the export
    is checked with. *)

Definition is_ws (c : N) : bool :=
  (c =? 32) || (c =? 10) || (c =? 13) || (c =? 9).

Fixpoint skip_ws (s : str) : str :=
  match s with
  | c :: r => if is_ws c then skip_ws r else s
  | [] => []
  end.

(** The value of a hexadecimal digit. *)
Definition unhex (c : N) : option N :=
  if (48 <=? c) && (c <=? 57) then Some (c - 48)
  else if (97 <=? c) && (c <=? 102) then Some (c - 87)
  else if (65 <=? c) && (c <=? 70) then Some (c - 55)
  else None.

(** Four hexadecimal digits and what follows them. *)
Definition read_hex4 (s : str) : option (N * str) :=
  match s with
  | a :: b :: c :: d :: r =>
    match unhex a, unhex b, unhex c, unhex d with
    | Some x3, Some x2, Some x1, Some x0 =>
      Some (x3 * 4096 + x2 * 256 + x1 * 16 + x0, r)
    | _, _, _, _ => None
    end
  | _ => None
  end.

Definition is_high_surrogate (u : N) : bool := (0xD800 <=? u) && (u <=? 0xDBFF).

Definition is_low_surrogate (u : N) : bool := (0xDC00 <=? u) && (u <=? 0xDFFF).

(** The character an escape stands for, read after its backslash; a high
    surrogate followed by an escaped low surrogate is one character. *)
Definition read_escape (s : str) : option (N * str) :=
  match s with
  | [] => None
  | e :: r =>
    if e =? 117 then
      match read_hex4 r with
      | None => None
      | Some (u1, r1) =>
        if is_high_surrogate u1 then
          match r1 with
          | c1 :: c2 :: r2 =>
            if (c1 =? 0x5C) && (c2 =? 117) then
              match read_hex4 r2 with
              | None => None
              | Some (u2, r3) =>
                if is_low_surrogate u2
                then Some (0x10000 + (u1 - 0xD800) * 1024 + (u2 - 0xDC00), r3)
                else Some (u1, r1)
              end
            else Some (u1, r1)
          | _ => Some (u1, r1)
          end
        else Some (u1, r1)
      end
    else if e =? 0x22 then Some (0x22, r)
    else if e =? 0x5C then Some (0x5C, r)
    else if e =? 0x2F then Some (0x2F, r)
    else if e =? 98 then Some (8, r)
    else if e =? 102 then Some (12, r)
    else if e =? 110 then Some (10, r)
    else if e =? 114 then Some (13, r)
    else if e =? 116 then Some (9, r)
    else None
  end.

(** A string, read after its opening quote up to the closing one. *)
Fixpoint parse_string (fuel : nat) (s : str) : option (str * str) :=
  match fuel with
  | O => None
  | S f =>
    match s with
    | [] => None
    | c :: r =>
      if c =? 0x22 then Some ([], r)
      else if c =? 0x5C then
        match read_escape r with
        | None => None
        | Some (x, r') =>
          match parse_string f r' with
          | Some (t, r'') => Some (x :: t, r'')
          | None => None
          end
        end
      else if c <? 0x20 then None
      else
        match parse_string f r with
        | Some (t, r') => Some (c :: t, r')
        | None => None
        end
    end
  end.

(** A value; the items of an array up to its bracket; the members of an
    object up to its brace. *)
Fixpoint parse_value (fuel : nat) (s : str) : option (json * str) :=
  match fuel with
  | O => None
  | S f =>
    match skip_ws s with
    | [] => None
    | c :: r =>
      if c =? 0x22 then
        match parse_string f r with
        | Some (t, r') => Some (JString t, r')
        | None => None
        end
      else if c =? 91 then
        match skip_ws r with
        | [] => None
        | c' :: r' =>
          if c' =? 93 then Some (JArray [], r')
          else
            match parse_items f r with
            | Some (vs, r'') => Some (JArray vs, r'')
            | None => None
            end
        end
      else if c =? 123 then
        match skip_ws r with
        | [] => None
        | c' :: r' =>
          if c' =? 125 then Some (JObject [], r')
          else
            match parse_members f r with
            | Some (ms, r'') => Some (JObject ms, r'')
            | None => None
            end
        end
      else None
    end
  end
with parse_items (fuel : nat) (s : str) : option (list json * str) :=
  match fuel with
  | O => None
  | S f =>
    match parse_value f s with
    | None => None
    | Some (v, r) =>
      match skip_ws r with
      | [] => None
      | c :: r' =>
        if c =? 44 then
          match parse_items f r' with
          | Some (vs, r'') => Some (v :: vs, r'')
          | None => None
          end
        else if c =? 93 then Some ([v], r')
        else None
      end
    end
  end
with parse_members (fuel : nat) (s : str) : option (list (str * json) * str) :=
  match fuel with
  | O => None
  | S f =>
    match skip_ws s with
    | [] => None
    | q :: r0 =>
      if q =? 0x22 then
        match parse_string f r0 with
        | None => None
        | Some (k, r1) =>
          match skip_ws r1 with
          | [] => None
          | colon :: r2 =>
            if colon =? 58 then
              match parse_value f r2 with
              | None => None
              | Some (v, r) =>
                match skip_ws r with
                | [] => None
                | c :: r' =>
                  if c =? 44 then
                    match parse_members f r' with
                    | Some (ms, r'') => Some ((k, v) :: ms, r'')
                    | None => None
                    end
                  else if c =? 125 then Some ([(k, v)], r')
                  else None
                end
              end
            else None
          end
        end
      else None
    end
  end.

(** [json.loads(s)]: one value and nothing but white space after it. *)
Definition json_loads (s : str) : option json :=
  match parse_value (length s) s with
  | Some (j, r) =>
    match skip_ws r with
    | [] => Some j
    | _ :: _ => None
    end
  | None => None
  end.

(** A Unicode scalar value: a code point that is no surrogate. *)
Definition scalar (c : N) : bool :=
  (c <? 0x110000) && negb ((0xD800 <=? c) && (c <=? 0xDFFF)).

(** A text of scalar values, as every decoded text is. *)
Definition scalar_text (s : str) : bool := forallb scalar s.

Fixpoint scalar_json (j : json) : bool :=
  match j with
  | JString s => scalar_text s
  | JArray items => forallb scalar_json items
  | JObject members =>
    forallb (fun kv => scalar_text (fst kv) && scalar_json (snd kv)) members
  end.

(** Steps that are enough for the reader to read a value back. *)
Fixpoint json_fuel (j : json) : nat :=
  match j with
  | JString s => (2 + length s)%nat
  | JArray items => (1 + list_sum (map (fun x => 1 + json_fuel x) items))%nat
  | JObject members =>
    (1 + list_sum (map (fun kv => 2 + length (fst kv) + json_fuel (snd kv))
                       members))%nat
  end.

(** A value that is read back wherever it is written, given the steps. *)
Definition reads_back (j : json) : Prop :=
  forall (level fuel : nat) (rest : str),
    (json_fuel j <= fuel)%nat ->
    parse_value fuel (dumps_at level j ++ rest) = Some (j, rest).

(** *** Reading a timestamp back *)

(** The number a run of decimal digits writes, after the digits [acc]
    stands for. *)
Fixpoint undigits (acc : N) (s : str) : option N :=
  match s with
  | [] => Some acc
  | c :: r =>
    if (48 <=? c) && (c <=? 57) then undigits (acc * 10 + (c - 48)) r
    else None
  end.

(** [datetime.fromisoformat] on the form [isoformat] writes. *)
Definition parse_isoformat (s : str) : option datetime :=
  match s with
  | y1 :: y2 :: y3 :: y4 :: d1 :: m1 :: m2 :: d2 :: a1 :: a2 :: t
    :: h1 :: h2 :: c1 :: n1 :: n2 :: c2 :: s1 :: s2 :: frac =>
    if (d1 =? 45) && (d2 =? 45) && (t =? 84) && (c1 =? 58) && (c2 =? 58) then
      match undigits 0 [y1; y2; y3; y4], undigits 0 [m1; m2],
            undigits 0 [a1; a2], undigits 0 [h1; h2], undigits 0 [n1; n2],
            undigits 0 [s1; s2],
            match frac with
            | [] => Some 0
            | dot :: f =>
              if (dot =? 46) && Nat.eqb (length f) 6 then undigits 0 f else None
            end with
      | Some y, Some mo, Some da, Some ho, Some mi, Some se, Some us =>
        Some {| year := y; month := mo; day := da;
                hour := ho; minute := mi; second := se; microsecond := us |}
      | _, _, _, _, _, _, _ => None
      end
    else None
  | _ => None
  end.

(** The ranges of Python's [datetime]. *)
Definition datetime_ok (d : datetime) : Prop :=
  1 <= year d <= 9999 /\ 1 <= month d <= 12 /\ 1 <= day d <= 31
  /\ hour d <= 23 /\ minute d <= 59 /\ second d <= 59
  /\ microsecond d <= 999999.

(** ** Messages *)

Inductive role := user | assistant.

Definition role_str (r : role) : str :=
  match r with
  | user => lit "user"
  | assistant => lit "assistant"
  end.

(** [{"role": ..., "content": ...}]. *)
Record Message := { msg_role : role; content : str }.

Definition message_json (m : Message) : json :=
  JObject [(lit "role", JString (role_str (msg_role m)));
           (lit "content", JString (content m))].

(** [s[:n]]. *)
Definition str_prefix (n : nat) (s : str) : str := firstn n s.

Section App.

(** The client object boto3 hands out; the module never looks inside. *)
Context {Client : Type}.

(** Python's [str(e)] on an exception, as the f-strings of the module
    call it. *)
Context (py_str : exn -> str).

(** ** The outside world *)

(** The three places credentials come from, in the order of the source. *)
Inductive source := FromSecrets | FromEnviron | FromDefault.

(** [st.secrets]: a mapping once its file has been read, or an object
    whose every access raises. *)
Inductive secrets_store :=
| SecretsUnreadable (e : exn)
| SecretsLoaded (m : gmap string str).

(** What one run of the script sees around it.  [st_secrets] is [None]
    when [st] has no attribute [secrets]; [boto3_client] is
    [boto3.client('bedrock-agent-runtime', region_name='us-east-1', ...)]
    with the three credential arguments ([None] when not passed or passed
    as [None]), told apart by the place that calls it. *)
Record World := {
  st_secrets : option secrets_store;
  environ : gmap string str;
  boto3_client :
    source -> option str -> option str -> option str -> result Client;
  list_agents : Client -> N -> result unit;
  invoke_agent : Client -> str -> str -> str -> str -> result response;
  uuid4 : str;
  now : datetime
}.

(** What the module does to the outside: calls and status boxes. *)
Inductive effect :=
| Boto3Client (src : source) (key secret token : option str)
| ListAgents (maxResults : N)
| InvokeAgent (agentId agentAliasId sessionId inputText : str)
| StSuccess (msg : str)
| StWarning (msg : str)
| StError (msg : str).

(** A computation that may raise and leaves a trace of effects. *)
Definition M (A : Type) : Type := list effect * result A.

Definition ret {A} (a : A) : M A := ([], Returned a).

Definition lift {A} (r : result A) : M A := ([], r).

Definition emit (ef : effect) : M unit := ([ef], Returned tt).

Definition bind {A B} (m : M A) (k : A -> M B) : M B :=
  match m with
  | (t, Returned a) => let (t', r) := k a in (t ++ t', r)
  | (t, Raised e) => (t, Raised e)
  end.

(** [try: m  except Exception as e: h e]. *)
Definition try_except {A} (m : M A) (h : exn -> M A) : M A :=
  match m with
  | (t, Raised e) => let (t', r) := h e in (t ++ t', r)
  | (t, Returned a) => (t, Returned a)
  end.

Notation "'let*' x ':=' m 'in' k" := (bind m (fun x => k))
  (at level 10, x name, m at level 100, k at level 200, only parsing).

Notation "m ';*' k" := (bind m (fun _ => k))
  (at level 100, k at level 200, only parsing, right associativity).

(** *** Reading configuration *)

(** [st.secrets], or [AttributeError] when there is no such attribute. *)
Definition the_secrets (w : World) : result secrets_store :=
  match st_secrets w with
  | Some s => Returned s
  | None => Raised (AttributeError "secrets")
  end.

(** [key in st.secrets]. *)
Definition secrets_contains (w : World) (key : string) : result bool :=
  let! s := the_secrets w in
  match s with
  | SecretsUnreadable e => Raised e
  | SecretsLoaded m =>
    Returned (match m !! key with Some _ => true | None => false end)
  end.

(** [st.secrets[key]]. *)
Definition secrets_getitem (w : World) (key : string) : result str :=
  let! s := the_secrets w in
  match s with
  | SecretsUnreadable e => Raised e
  | SecretsLoaded m => getitem m key
  end.

(** [st.secrets.get(key)]. *)
Definition secrets_get (w : World) (key : string) : result (option str) :=
  let! s := the_secrets w in
  match s with
  | SecretsUnreadable e => Raised e
  | SecretsLoaded m => Returned (m !! key)
  end.

(** [os.getenv(key)]. *)
Definition getenv (w : World) (key : string) : option str := environ w !! key.

(** *** Calls that leave the module *)

Definition call_boto3_client (w : World) (src : source)
  (key secret token : option str) : M Client :=
  ([Boto3Client src key secret token], boto3_client w src key secret token).

Definition call_list_agents (w : World) (c : Client) (maxResults : N) : M unit :=
  ([ListAgents maxResults], list_agents w c maxResults).

Definition call_invoke_agent (w : World) (c : Client)
  (agentId agentAliasId sessionId inputText : str) : M response :=
  ([InvokeAgent agentId agentAliasId sessionId inputText],
   invoke_agent w c agentId agentAliasId sessionId inputText).

(** ** [initialize_aws_client] *)

(** Lines 18-32: the secret store.  [Return client] is the [return] of
    line 29; [Next] is control reaching line 34. *)
Definition method_secrets (w : World) : M (flow Client) :=
  try_except
    (let* present :=
       lift (match st_secrets w with
             | Some _ => secrets_contains w "AWS_ACCESS_KEY_ID"
             | None => Returned false
             end) in
     if present : bool then
       let* key := lift (secrets_getitem w "AWS_ACCESS_KEY_ID") in
       let* secret := lift (secrets_getitem w "AWS_SECRET_ACCESS_KEY") in
       let* token := lift (secrets_get w "AWS_SESSION_TOKEN") in
       let* client :=
         call_boto3_client w FromSecrets (Some key) (Some secret) token in
       emit (StSuccess
               (check_mark :: lit " AWS credentials loaded from Streamlit secrets")) ;*
       ret (Return client)
     else ret Next)
    (fun e =>
       emit (StWarning (lit "Streamlit secrets method failed: " ++ py_str e)) ;*
       ret Next).

(** Lines 34-48: environment variables. *)
Definition method_environ (w : World) : M (flow Client) :=
  try_except
    (if truthy (getenv w "AWS_ACCESS_KEY_ID") then
       let* client :=
         call_boto3_client w FromEnviron
           (getenv w "AWS_ACCESS_KEY_ID")
           (getenv w "AWS_SECRET_ACCESS_KEY")
           (getenv w "AWS_SESSION_TOKEN") in
       emit (StSuccess
               (check_mark :: lit " AWS credentials loaded from environment variables")) ;*
       ret (Return client)
     else ret Next)
    (fun e =>
       emit (StWarning (lit "Environment variables method failed: " ++ py_str e)) ;*
       ret Next).

(** Lines 50-60: default credentials, checked with [list_agents]. *)
Definition method_default (w : World) : M (option Client) :=
  try_except
    (let* client := call_boto3_client w FromDefault None None None in
     call_list_agents w client 1 ;*
     emit (StSuccess
             (check_mark :: lit " AWS credentials loaded from default sources")) ;*
     ret (Some client))
    (fun e =>
       emit (StError (lit "Default credentials method failed: " ++ py_str e)) ;*
       ret None).

(** Lines 16-60. *)
Definition initialize_aws_client (w : World) : M (option Client) :=
  let* r1 := method_secrets w in
  match r1 with
  | Return client => ret (Some client)
  | Next =>
    let* r2 := method_environ w in
    match r2 with
    | Return client => ret (Some client)
    | Next => method_default w
    end
  end.

(** ** [get_agent_config] *)

(** The two local variables of the function. *)
Record config_vars := {
  agent_id : option str;
  agent_alias_id : option str
}.

(** Lines 69-70, the [try] block: the variables as it leaves them, and
    whether it raised. *)
Definition config_try (w : World) (v : config_vars) : config_vars * result unit :=
  match secrets_getitem w "AGENT_ID" with
  | Raised e => (v, Raised e)
  | Returned a =>
    let v := {| agent_id := Some a; agent_alias_id := agent_alias_id v |} in
    match secrets_getitem w "AGENT_ALIAS_ID" with
    | Raised e => (v, Raised e)
    | Returned b =>
      ({| agent_id := agent_id v; agent_alias_id := Some b |}, Returned tt)
    end
  end.

(** Lines 73-74, the [except] block. *)
Definition config_except (w : World) (v : config_vars) : config_vars :=
  let v := {| agent_id := getenv w "AGENT_ID";
              agent_alias_id := agent_alias_id v |} in
  {| agent_id := agent_id v; agent_alias_id := getenv w "AGENT_ALIAS_ID" |}.

(** Lines 62-76. *)
Definition get_agent_config (w : World) : option str * option str :=
  let v := {| agent_id := None; agent_alias_id := None |} in
  let (v, r) := config_try w v in
  let v := match r with
           | Returned _ => v
           | Raised _ => config_except w v
           end in
  (agent_id v, agent_alias_id v).

(** ** [generate_response] *)

(** Lines 107-120: the three [except] clauses, tried in order. *)
Definition generate_response_except (e : exn) : M str :=
  match e with
  | ClientError error_code message =>
    if str_eqb error_code (lit "AccessDeniedException")
    then ret msg_access_denied
    else if str_eqb error_code (lit "ResourceNotFoundException")
    then ret msg_agent_not_found
    else ret (msg_aws_error message)
  | NoCredentialsError => ret msg_no_credentials
  | _ => ret (msg_unexpected (py_str e))
  end.

(** Lines 92-120.  The spinner of line 95 is drawn while the block runs
    and leaves nothing on the page; the trace records the remote call. *)
Definition generate_response (w : World) (client : Client)
  (prompt agent_id agent_alias_id session_id : str) : M str :=
  try_except
    (let* response :=
       call_invoke_agent w client agent_id agent_alias_id session_id prompt in
     let* response_text := lift (fst (process_response response)) in
     ret (match response_text with
          | Some (c :: text) => c :: text
          | _ => msg_no_response
          end))
    generate_response_except.

(** ** Session state and the script *)

(** [st.session_state], with the four keys lines 123-133 create. *)
Record SessionState := {
  session_id : str;
  messages : list Message;
  client_initialized : bool;
  client : option Client
}.

(** Lines 123-133 on a first page load. *)
Definition fresh_session (w : World) : SessionState :=
  {| session_id := uuid4 w; messages := [];
     client_initialized := false; client := None |}.

Definition set_messages (ms : list Message) (s : SessionState) : SessionState :=
  {| session_id := session_id s; messages := ms;
     client_initialized := client_initialized s; client := client s |}.

Definition set_session_id (sid : str) (s : SessionState) : SessionState :=
  {| session_id := sid; messages := messages s;
     client_initialized := client_initialized s; client := client s |}.

Definition set_client (c : option Client) (s : SessionState) : SessionState :=
  {| session_id := session_id s; messages := messages s;
     client_initialized := client_initialized s; client := c |}.

Definition set_client_initialized (b : bool) (s : SessionState) : SessionState :=
  {| session_id := session_id s; messages := messages s;
     client_initialized := b; client := client s |}.

(** [st.session_state.messages.append(m)]. *)
Definition append_message (m : Message) (s : SessionState) : SessionState :=
  set_messages (messages s ++ [m]) s.

(** What the user did to the page to cause this run of the script. *)
Inductive ui_event :=
| Idle
| PressNewSession
| PressInitialize
| PressRetry
| PressClearChat
| SubmitPrompt (prompt : str).

(** How a run of the script ends: at its last line, in [st.rerun()], in
    [st.stop()], or in an exception nobody caught. *)
Inductive ending :=
| Completed
| Rerun
| Stopped
| Failed (e : exn).

(** The arguments of [st.download_button]. *)
Record download := { data : str; file_name : str; mime : str }.

(** A stretch of the script: the state it leaves, its effects, and
    [Some] ending when the run ends inside it. *)
Definition stage : Type := SessionState -> SessionState * list effect * option ending.

Definition continue (s : SessionState) : SessionState * list effect * option ending :=
  (s, [], None).

Definition then_ (a b : stage) : stage :=
  fun s =>
    match a s with
    | (s1, t1, Some e) => (s1, t1, Some e)
    | (s1, t1, None) =>
      match b s1 with
      | (s2, t2, e) => (s2, t1 ++ t2, e)
      end
    end.

(** Lines 147-150: the New Session button. *)
Definition new_session_button (w : World) (ev : ui_event) : stage :=
  fun s =>
    match ev with
    | PressNewSession =>
      let s := set_session_id (uuid4 w) s in
      let s := set_messages [] s in
      (s, [], Some Rerun)
    | _ => continue s
    end.

(** Lines 155-167: the Initialize and Retry buttons. *)
Definition aws_status (w : World) (ev : ui_event) : stage :=
  fun s =>
    if negb (client_initialized s) then
      match ev with
      | PressInitialize =>
        match initialize_aws_client w with
        | (t, Returned c) =>
          let s := set_client c s in
          let s := set_client_initialized true s in
          (s, t, Some Rerun)
        | (t, Raised e) => (s, t, Some (Failed e))
        end
      | _ => continue s
      end
    else
      match client s with
      | Some _ => continue s
      | None =>
        match ev with
        | PressRetry =>
          match initialize_aws_client w with
          | (t, Returned c) => (set_client c s, t, Some Rerun)
          | (t, Raised e) => (s, t, Some (Failed e))
          end
        | _ => continue s
        end
      end.

(** Lines 182-184: the Clear Chat button. *)
Definition clear_chat_button (ev : ui_event) : stage :=
  fun s =>
    match ev with
    | PressClearChat => (set_messages [] s, [], Some Rerun)
    | _ => continue s
    end.

(** Lines 243-260, reached with the client and the two agent
    identifiers in hand. *)
Definition chat_input (w : World) (ev : ui_event) (c : Client)
  (agent_id agent_alias_id : str) : stage :=
  fun s =>
    match ev with
    | SubmitPrompt prompt =>
      if truthy (Some prompt) then
        let s := append_message {| msg_role := user; content := prompt |} s in
        match generate_response w c prompt agent_id agent_alias_id (session_id s) with
        | (t, Returned response) =>
          (append_message {| msg_role := assistant; content := response |} s,
           t, None)
        | (t, Raised e) => (s, t, Some (Failed e))
        end
      else continue s
    | _ => continue s
    end.

(** Lines 193-260: the three checks that end the run in [st.stop()], then
    the chat input. *)
Definition chat_page (w : World) (ev : ui_event) : stage :=
  fun s =>
    if negb (client_initialized s) then (s, [], Some Stopped)
    else
      match client s with
      | None => (s, [], Some Stopped)
      | Some c =>
        match get_agent_config w with
        | (Some (a :: agent_id), Some (b :: agent_alias_id)) =>
          chat_input w ev c (a :: agent_id) (b :: agent_alias_id) s
        | _ => (s, [], Some Stopped)
        end
      end.

(** Lines 270-274. *)
Definition chat_export (w : World) (s : SessionState) : json :=
  JObject [(lit "session_id", JString (session_id s));
           (lit "timestamp", JString (isoformat (now w)));
           (lit "messages", JArray (map message_json (messages s)))].

(** Lines 268-281: the download offered when there are messages. *)
Definition export_chat (w : World) (s : SessionState) : option download :=
  match messages s with
  | [] => None
  | _ :: _ =>
    Some {| data := json_dumps (chat_export w s);
            file_name := lit "chat_" ++ str_prefix 8 (session_id s) ++ lit ".json";
            mime := lit "application/json" |}
  end.

(** One run of the script, top to bottom. *)
Record pass := {
  state_after : SessionState;
  effects : list effect;
  ending_of : ending;
  offered : option download
}.

Definition script_pass (w : World) (ev : ui_event) (s : SessionState) : pass :=
  match then_ (new_session_button w ev)
          (then_ (aws_status w ev)
             (then_ (clear_chat_button ev) (chat_page w ev))) s with
  | (s', t, Some e) =>
    {| state_after := s'; effects := t; ending_of := e; offered := None |}
  | (s', t, None) =>
    {| state_after := s'; effects := t; ending_of := Completed;
       offered := export_chat w s' |}
  end.

(** What one action of the user does to the session: the run it causes
    and, when that run asks for it, the run that follows at once with no
    widget pressed. *)
Definition interact (w : World) (ev : ui_event) (s : SessionState) : SessionState :=
  let p := script_pass w ev s in
  match ending_of p with
  | Rerun => state_after (script_pass w Idle (state_after p))
  | _ => state_after p
  end.

(** A conversation: one world and one prompt per turn. *)
Fixpoint converse (turns : list (World * str)) (s : SessionState) : SessionState :=
  match turns with
  | [] => s
  | (w, prompt) :: rest => converse rest (interact w (SubmitPrompt prompt) s)
  end.

(** ** Definitions the statements below are written with *)

(** A chunk event carrying the raw bytes [b] and nothing else. *)
Definition chunk_event (b : bytes) : event :=
  {[ "chunk"%string := {[ "bytes"%string := VBytes b ]} ]}.

(** The event an exception carries: its own argument, or the one carried
    by the exception it wraps. *)
Fixpoint carried_event (e : exn) : option event :=
  match e with
  | PyException _ a =>
    match a with
    | ArgEvent ev => Some ev
    | ArgExn e' => carried_event e'
    end
  | _ => None
  end.

(** The message table of the agent invoker, one line per kind of
    failure. *)
Inductive documented_message : exn -> str -> Prop :=
| doc_access_denied m :
    documented_message (ClientError (lit "AccessDeniedException") m)
      msg_access_denied
| doc_agent_not_found m :
    documented_message (ClientError (lit "ResourceNotFoundException") m)
      msg_agent_not_found
| doc_service_error code m :
    code <> lit "AccessDeniedException" ->
    code <> lit "ResourceNotFoundException" ->
    documented_message (ClientError code m) (msg_aws_error m)
| doc_no_credentials :
    documented_message NoCredentialsError msg_no_credentials
| doc_unexpected e :
    (forall code m, e <> ClientError code m) ->
    e <> NoCredentialsError ->
    documented_message e (msg_unexpected (py_str e)).


(** *** Credential resolution as the specification words it *)

(** Source 1: the secret store holds [AWS_ACCESS_KEY_ID]; a client is
    built from the access key, the secret key and the optional session
    token of that store. *)
Definition secrets_attempt (w : World) : option Client :=
  match st_secrets w with
  | Some (SecretsLoaded m) =>
    match m !! "AWS_ACCESS_KEY_ID"%string, m !! "AWS_SECRET_ACCESS_KEY"%string with
    | Some key, Some secret =>
      match boto3_client w FromSecrets (Some key) (Some secret)
              (m !! "AWS_SESSION_TOKEN"%string) with
      | Returned c => Some c
      | Raised _ => None
      end
    | _, _ => None
    end
  | _ => None
  end.

(** Source 2: the same three names among the environment variables. *)
Definition environ_attempt (w : World) : option Client :=
  if truthy (environ w !! "AWS_ACCESS_KEY_ID"%string) then
    match boto3_client w FromEnviron
            (environ w !! "AWS_ACCESS_KEY_ID"%string)
            (environ w !! "AWS_SECRET_ACCESS_KEY"%string)
            (environ w !! "AWS_SESSION_TOKEN"%string) with
    | Returned c => Some c
    | Raised _ => None
    end
  else None.

(** Source 3: default credentials, accepted when listing up to one agent
    works. *)
Definition default_attempt (w : World) : option Client :=
  match boto3_client w FromDefault None None None with
  | Returned c =>
    match list_agents w c 1 with
    | Returned _ => Some c
    | Raised _ => None
    end
  | Raised _ => None
  end.

(** The first source that gives a client, or [None]. *)
Definition resolve (w : World) : option Client :=
  match secrets_attempt w with
  | Some c => Some c
  | None =>
    match environ_attempt w with
    | Some c => Some c
    | None => default_attempt w
    end
  end.

(** The sources for which a trace shows a client being built, in the
    order of the calls. *)
Definition sources_tried (t : list effect) : list source :=
  omap (fun ef => match ef with
                  | Boto3Client src _ _ _ => Some src
                  | _ => None
                  end) t.

(** The [maxResults] of the [list_agents] calls of a trace. *)
Definition probes (t : list effect) : list N :=
  omap (fun ef => match ef with
                  | ListAgents n => Some n
                  | _ => None
                  end) t.


(** *** The conversation as the specification words it *)

(** The session can chat: the client has been initialized and is there. *)
Definition ready (s : SessionState) : Prop :=
  client_initialized s = true /\ is_Some (client s).

(** A turn that reaches the agent invoker: both agent identifiers are
    configured and the prompt is not empty. *)
Definition reaches_invoker (turn : World * str) : Prop :=
  truthy (fst (get_agent_config (fst turn))) = true
  /\ truthy (snd (get_agent_config (fst turn))) = true
  /\ truthy (Some (snd turn)) = true.

(** The history [n] exchanges make: prompt, reply, prompt, reply, ... *)
Definition transcript (exchanges : list (str * str)) : list Message :=
  flat_map (fun pr => [ {| msg_role := user; content := fst pr |};
                        {| msg_role := assistant; content := snd pr |} ])
    exchanges.


(** *** The shape of an ISO-8601 timestamp *)

Definition is_digit (c : N) : bool := (48 <=? c) && (c <=? 57).

(** [YYYY-MM-DDTHH:MM:SS], optionally followed by [.] and six digits. *)
Definition iso8601 (s : str) : bool :=
  match s with
  | y1 :: y2 :: y3 :: y4 :: d1 :: m1 :: m2 :: d2 :: a1 :: a2 :: t
    :: h1 :: h2 :: c1 :: n1 :: n2 :: c2 :: s1 :: s2 :: frac =>
    forallb is_digit [y1; y2; y3; y4; m1; m2; a1; a2; h1; h2; n1; n2; s1; s2]
    && (d1 =? 45) && (d2 =? 45) && (t =? 84) && (c1 =? 58) && (c2 =? 58)
    && match frac with
       | [] => true
       | dot :: f => (dot =? 46) && Nat.eqb (length f) 6 && forallb is_digit f
       end
  | _ => false
  end.

(** ** More of the page *)

(** [m["role"] == "user"]. *)
Definition is_user (m : Message) : bool :=
  match msg_role m with
  | user => true
  | assistant => false
  end.

(** Line 265: the Messages metric. *)
Definition metric_messages (s : SessionState) : nat := length (messages s).

(** Line 266: the User Messages metric. *)
Definition metric_user_messages (s : SessionState) : nat :=
  length (List.filter is_user (messages s)).

(** *** Reading a trace *)

Definition successes (t : list effect) : list str :=
  omap (fun ef => match ef with StSuccess m => Some m | _ => None end) t.

Definition warnings (t : list effect) : list str :=
  omap (fun ef => match ef with StWarning m => Some m | _ => None end) t.

Definition errors (t : list effect) : list str :=
  omap (fun ef => match ef with StError m => Some m | _ => None end) t.

(** The agent calls of a trace, with their four arguments. *)
Definition invocations (t : list effect) : list (str * str * str * str) :=
  omap (fun ef => match ef with
                  | InvokeAgent a b c d => Some (a, b, c, d)
                  | _ => None
                  end) t.

(** *** Why an extraction fails *)

(** What the first step of the stream makes the loop of
    [process_response] raise. *)
Inductive extraction_cause : item -> exn -> Prop :=
| cause_stream e :
    extraction_cause (IterRaise e) e
| cause_no_chunk ev :
    ev !! "chunk"%string = None ->
    extraction_cause (Yield ev) (PyException unexpected_event (ArgEvent ev))
| cause_no_bytes ev (chunk : payload) :
    ev !! "chunk"%string = Some chunk ->
    chunk !! "bytes"%string = None ->
    extraction_cause (Yield ev) (KeyError "bytes")
| cause_not_bytes ev (chunk : payload) s :
    ev !! "chunk"%string = Some chunk ->
    chunk !! "bytes"%string = Some (VStr s) ->
    extraction_cause (Yield ev) (AttributeError "decode")
| cause_not_utf8 ev (chunk : payload) b :
    ev !! "chunk"%string = Some chunk ->
    chunk !! "bytes"%string = Some (VBytes b) ->
    utf8_decode b = None ->
    extraction_cause (Yield ev) (UnicodeDecodeError b).

(** *** Sessions whose texts are well formed *)

(** The session identifier and every message are texts of scalar
    values. *)
Definition scalar_session (s : SessionState) : Prop :=
  scalar_text (session_id s) = true
  /\ Forall (fun m => scalar_text (content m) = true) (messages s).

(** *** How a stage may end a run *)

(** A stage that ends a run only in a rerun or a stop. *)
Definition open_stage (st : stage) : Prop :=
  forall s, forall e, snd (st s) = Some e -> e = Rerun \/ e = Stopped.

(** *** The characters of the exported document *)

(** Printable ASCII. *)
Definition printable (c : N) : bool := (0x20 <=? c) && (c <=? 0x7E).

(** Printable ASCII or a line break. *)
Definition document_char (c : N) : bool := printable c || (c =? 10).

(** A text of such characters only. *)
Definition document_text (s : str) : Prop :=
  Forall (fun c => document_char c = true) s.

End App.

Arguments World : clear implicits.
Arguments SessionState : clear implicits.
Arguments stage : clear implicits.
Arguments pass : clear implicits.

(** ** Sample inputs *)

(** A rendering of exceptions to compute with. *)
Definition sample_py_str (e : exn) : str :=
  match e with
  | OtherException _ text => text
  | KeyError key => lit key
  | _ => lit "error"
  end.

(** The bytes of ["Hi there"]. *)
Definition hi_there : bytes := [x48; x69; x20; x74; x68; x65; x72; x65].

(** A world with the agent configured in the secret store, no AWS keys
    anywhere, and a service that answers with the stream [answer]; its
    clients are numbers. *)
Definition sample_world (answer : result response) : World nat :=
  {| st_secrets :=
       Some (SecretsLoaded
               {[ "AGENT_ID"%string := lit "AGENT1234";
                  "AGENT_ALIAS_ID"%string := lit "ALIAS1" ]});
     environ := ∅;
     boto3_client := fun src _ _ _ =>
       match src with
       | FromDefault => Returned 3%nat
       | _ => Raised NoCredentialsError
       end;
     list_agents := fun _ _ => Returned tt;
     invoke_agent := fun _ _ _ _ _ => answer;
     uuid4 := lit "0f8fad5b-d9cb-469f-a165-70867728950e";
     now := {| year := 2024; month := 3; day := 9;
               hour := 7; minute := 5; second := 1; microsecond := 42 |} |}.

(** A world whose environment holds the AWS keys and whose secret store
    cannot be read. *)
Definition environ_world : World nat :=
  {| st_secrets := Some (SecretsUnreadable (OtherException "FileNotFoundError" (lit "no secrets")));
     environ := {[ "AWS_ACCESS_KEY_ID"%string := lit "AKIA";
                   "AWS_SECRET_ACCESS_KEY"%string := lit "shh" ]};
     boto3_client := fun src _ _ _ =>
       match src with
       | FromEnviron => Returned 2%nat
       | _ => Raised NoCredentialsError
       end;
     list_agents := fun _ _ => Returned tt;
     invoke_agent := fun _ _ _ _ _ => Raised NoCredentialsError;
     uuid4 := lit "0f8fad5b-d9cb-469f-a165-70867728950e";
     now := {| year := 2024; month := 3; day := 9;
               hour := 7; minute := 5; second := 1; microsecond := 0 |} |}.

(** An event of another kind than a chunk. *)
Definition trace_event : event := {[ "trace"%string := ∅ ]}.

(** The stream of one answer: a single chunk with the bytes [b]. *)
Definition one_chunk (b : bytes) : result response :=
  Returned {| completion := [Yield (chunk_event b)] |}.

(** One turn: the user says "Hello", the agent answers "Hi there". *)
Definition hello_turn : list (World nat * str) :=
  [(sample_world (one_chunk hi_there), lit "Hello")].

(** A world whose secret store has the access key and not the secret
    key; the default credentials work. *)
Definition partial_secrets_world : World nat :=
  {| st_secrets :=
       Some (SecretsLoaded {[ "AWS_ACCESS_KEY_ID"%string := lit "AKIA" ]});
     environ := ∅;
     boto3_client := fun _ _ _ _ => Returned 3%nat;
     list_agents := fun _ _ => Returned tt;
     invoke_agent := fun _ _ _ _ _ => Raised NoCredentialsError;
     uuid4 := lit "0f8fad5b-d9cb-469f-a165-70867728950e";
     now := {| year := 2024; month := 3; day := 9;
               hour := 7; minute := 5; second := 1; microsecond := 0 |} |}.

(** A world whose environment sets the access key to the empty string. *)
Definition empty_key_world : World nat :=
  {| st_secrets := None;
     environ := {[ "AWS_ACCESS_KEY_ID"%string := [];
                   "AWS_SECRET_ACCESS_KEY"%string := lit "shh" ]};
     boto3_client := fun _ _ _ _ => Returned 3%nat;
     list_agents := fun _ _ => Returned tt;
     invoke_agent := fun _ _ _ _ _ => Raised NoCredentialsError;
     uuid4 := lit "0f8fad5b-d9cb-469f-a165-70867728950e";
     now := {| year := 2024; month := 3; day := 9;
               hour := 7; minute := 5; second := 1; microsecond := 0 |} |}.

(** A world whose secret store holds an empty agent identifier while the
    environment holds a good one. *)
Definition empty_id_world : World nat :=
  {| st_secrets :=
       Some (SecretsLoaded
               {[ "AGENT_ID"%string := [];
                  "AGENT_ALIAS_ID"%string := lit "ALIAS1" ]});
     environ := {[ "AGENT_ID"%string := lit "AGENT1234";
                   "AGENT_ALIAS_ID"%string := lit "ALIAS1" ]};
     boto3_client := fun _ _ _ _ => Returned 3%nat;
     list_agents := fun _ _ => Returned tt;
     invoke_agent := fun _ _ _ _ _ => one_chunk hi_there;
     uuid4 := lit "0f8fad5b-d9cb-469f-a165-70867728950e";
     now := {| year := 2024; month := 3; day := 9;
               hour := 7; minute := 5; second := 1; microsecond := 0 |} |}.

(** A service error that arrives while the stream is read. *)
Definition denied : exn :=
  ClientError (lit "AccessDeniedException") (lit "not allowed").

Definition broken_stream : response := {| completion := [IterRaise denied] |}.

(** An answer in two chunks. *)
Definition two_chunks : response :=
  {| completion := [Yield (chunk_event hi_there); Yield (chunk_event hi_there)] |}.

(** An initialized session without a client. *)
Definition failed_session : SessionState nat :=
  {| session_id := lit "0f8fad5b-d9cb-469f-a165-70867728950e";
     messages := []; client_initialized := true; client := None |}.

(** A session that can chat, with the history [ms]. *)
Definition sample_session (ms : list Message) : SessionState nat :=
  {| session_id := lit "0f8fad5b-d9cb-469f-a165-70867728950e";
     messages := ms; client_initialized := true; client := Some 3%nat |}.

Section Properties.

Context {Client : Type} (py_str : exn -> str).

(** ** The response extractor *)

Lemma str_eqb_eq (a b : str) : str_eqb a b = true <-> a = b.
Proof.
  revert b; induction a as [|x a IH]; intros [|y b]; simpl; try easy.
  rewrite andb_true_iff, N.eqb_eq, IH. split.
  - intros [-> ->]; reflexivity.
  - intros [= -> ->]; auto.
Qed.

Lemma str_eqb_neq (a b : str) : a <> b -> str_eqb a b = false.
Proof.
  intros H. destruct (str_eqb a b) eqn:E; [|reflexivity].
  apply str_eqb_eq in E. contradiction.
Qed.

(** Only the empty byte string decodes to the empty text. *)
Lemma utf8_decode_empty (b : bytes) : utf8_decode b = Some [] -> b = [].
Proof.
  destruct b as [|c0 t0]; [reflexivity|].
  simpl. intros H. exfalso.
  repeat match type of H with
         | context [if ?c then _ else _] => destruct c
         | context [match ?l with [] => _ | _ :: _ => _ end] => destruct l
         | context [cons ?x <$> ?o] => destruct o; simpl in H
         end; discriminate.
Qed.

(** The loop of [process_response] never starts a second round: whatever
    the first [next()] gives decides the outcome, and the rest of the
    stream stays in the iterator. *)
Lemma process_response_reads_one (i : item) (rest : event_stream) :
  snd (process_response {| completion := i :: rest |}) = rest.
Proof.
  unfold process_response; simpl. destruct i as [ev|e]; [|reflexivity].
  destruct (process_response_body ev) as [[|a]|e] eqn:E; try reflexivity.
  exfalso. unfold process_response_body in E.
  destruct (ev !! "chunk"%string) as [chunk|]; [|discriminate].
  destruct (getitem chunk "bytes") as [d|]; simpl in E; [|discriminate].
  destruct (decode_utf8 d); simpl in E; discriminate.
Qed.

(** C1, as the claim states it, fails: a first chunk whose bytes are not
    UTF-8 (the single byte 0xFF) makes [process_response] raise instead of
    returning a text. *)
Lemma process_response_invalid_utf8 :
  process_response {| completion := [Yield (chunk_event [xff])] |}
  = (Raised (PyException unexpected_event
               (ArgExn (UnicodeDecodeError [xff]))), [])
  /\ ~ (exists v, fst (process_response
                         {| completion := [Yield (chunk_event [xff])] |})
                  = Returned v).
Proof.
  assert (E : process_response {| completion := [Yield (chunk_event [xff])] |}
              = (Raised (PyException unexpected_event
                           (ArgExn (UnicodeDecodeError [xff]))), []))
    by (vm_compute; reflexivity).
  split; [exact E|]. rewrite E. intros [v Hv]. discriminate.
Qed.

(** C1, amended: when the first event of the stream holds a chunk with
    bytes [b], [process_response] decides on that event alone and leaves
    every later event in the stream; it returns the UTF-8 decoding of [b]
    when [b] is valid UTF-8, and otherwise raises the "unexpected event."
    exception around the decoding error. *)
Theorem process_response_first_chunk
  (ev : event) (chunk : payload) (b : bytes) (rest : event_stream) :
  ev !! "chunk"%string = Some chunk ->
  chunk !! "bytes"%string = Some (VBytes b) ->
  process_response {| completion := Yield ev :: rest |}
  = (match utf8_decode b with
     | Some text => Returned (Some text)
     | None => Raised (PyException unexpected_event
                         (ArgExn (UnicodeDecodeError b)))
     end, rest).
Proof.
  intros Hc Hb. unfold process_response; simpl.
  unfold process_response_body. rewrite Hc. unfold getitem. rewrite Hb.
  simpl. destruct (utf8_decode b); reflexivity.
Qed.

(** C4: when the first event of the stream holds no chunk,
    [process_response] raises an "unexpected event." exception that
    carries that event: the one raised in the loop, wrapped once more by
    the [except] clause around the loop. *)
Theorem process_response_first_not_chunk (ev : event) (rest : event_stream) :
  ev !! "chunk"%string = None ->
  exists e,
    process_response {| completion := Yield ev :: rest |} = (Raised e, rest)
    /\ e = PyException unexpected_event
             (ArgExn (PyException unexpected_event (ArgEvent ev)))
    /\ carried_event e = Some ev.
Proof.
  intros Hc. eexists. split; [|split; [reflexivity|reflexivity]].
  unfold process_response; simpl. unfold process_response_body.
  rewrite Hc. reflexivity.
Qed.

(** ** The agent invoker *)

Lemma generate_response_except_returns (e : exn) :
  exists s, generate_response_except py_str e = ([], Returned s).
Proof.
  destruct e; simpl; eauto.
  repeat match goal with |- context [if ?c then _ else _] => destruct c end;
    eauto.
Qed.

Lemma generate_response_except_documented (e : exn) :
  exists s, generate_response_except py_str e = ([], Returned s)
            /\ documented_message py_str e s.
Proof.
  destruct e as [code m| | | | | |]; simpl;
    try (eexists; split; [reflexivity|]; apply doc_unexpected; congruence).
  - destruct (str_eqb code (lit "AccessDeniedException")) eqn:E1.
    { apply str_eqb_eq in E1; subst code.
      eexists; split; [reflexivity|constructor]. }
    destruct (str_eqb code (lit "ResourceNotFoundException")) eqn:E2.
    { apply str_eqb_eq in E2; subst code.
      eexists; split; [reflexivity|constructor]. }
    eexists; split; [reflexivity|].
    apply doc_service_error; intros ->; vm_compute in E1, E2; discriminate.
  - eexists; split; [reflexivity|constructor].
Qed.

(** [generate_response] returns a string whatever happens inside. *)
Lemma generate_response_never_raises_aux
  (w : World Client) (c : Client) (prompt aid alias sid : str) :
  exists t s, generate_response py_str w c prompt aid alias sid = (t, Returned s).
Proof.
  unfold generate_response, call_invoke_agent, try_except, bind, lift, ret.
  destruct (invoke_agent w c aid alias sid prompt) as [resp|e].
  - destruct (fst (process_response resp)) as [v|e]; simpl.
    + eauto.
    + destruct (generate_response_except_returns e) as [s ->]. eauto.
  - destruct (generate_response_except_returns e) as [s ->]. eauto.
Qed.


(** C5: on an empty stream [process_response] returns [None] without
    raising, and [generate_response], given a response whose stream is
    empty, returns "No response received". *)
Theorem empty_stream_no_response
  (w : World Client) (c : Client) (prompt aid alias sid : str) :
  invoke_agent w c aid alias sid prompt = Returned {| completion := [] |} ->
  process_response {| completion := [] |} = (Returned None, [])
  /\ generate_response py_str w c prompt aid alias sid
     = ([InvokeAgent aid alias sid prompt], Returned (lit "No response received")).
Proof.
  intros H. split; [reflexivity|].
  unfold generate_response, call_invoke_agent, try_except, bind, lift, ret.
  rewrite H. reflexivity.
Qed.

(** C9: when the first event is a chunk whose bytes decode to the empty
    text, [generate_response] returns "No response received", the same
    string as for a stream with no event at all. *)
Theorem empty_chunk_no_response
  (w : World Client) (c : Client) (prompt aid alias sid : str)
  (ev : event) (chunk : payload) (b : bytes) (rest : event_stream) :
  invoke_agent w c aid alias sid prompt
  = Returned {| completion := Yield ev :: rest |} ->
  ev !! "chunk"%string = Some chunk ->
  chunk !! "bytes"%string = Some (VBytes b) ->
  utf8_decode b = Some [] ->
  fst (process_response {| completion := Yield ev :: rest |}) = Returned (Some [])
  /\ generate_response py_str w c prompt aid alias sid
     = ([InvokeAgent aid alias sid prompt], Returned (lit "No response received")).
Proof.
  intros H Hc Hb Hd.
  assert (P : process_response {| completion := Yield ev :: rest |}
              = (Returned (Some []), rest)).
  { unfold process_response; simpl. unfold process_response_body.
    rewrite Hc. unfold getitem. rewrite Hb. simpl. rewrite Hd. reflexivity. }
  split; [rewrite P; reflexivity|].
  unfold generate_response, call_invoke_agent, try_except, bind, lift, ret.
  rewrite H, P. reflexivity.
Qed.

(** ** Credential and configuration resolution *)

Ltac run_monad :=
  unfold method_secrets, method_environ, method_default, try_except, bind,
    lift, ret, emit, call_boto3_client, call_list_agents, secrets_contains,
    secrets_getitem, secrets_get, the_secrets, getitem, getenv, rbind in *.

Lemma sources_tried_app (t1 t2 : list effect) :
  sources_tried (t1 ++ t2) = sources_tried t1 ++ sources_tried t2.
Proof. apply omap_app. Qed.

Lemma probes_app (t1 t2 : list effect) :
  probes (t1 ++ t2) = probes t1 ++ probes t2.
Proof. apply omap_app. Qed.

(** The first [try] block: it hands over the client of source 1 or lets
    control pass on, never raises, and builds at most one client. *)
Lemma method_secrets_spec (w : World Client) :
  exists t,
    method_secrets py_str w
    = (t, Returned (match secrets_attempt w with
                    | Some c => Return c
                    | None => Next
                    end))
    /\ probes t = []
    /\ (sources_tried t = [] \/ sources_tried t = [FromSecrets])
    /\ (is_Some (secrets_attempt w) -> sources_tried t = [FromSecrets]).
Proof.
  unfold secrets_attempt. run_monad.
  destruct (st_secrets w) as [[e|m]|]; simpl.
  - eexists; split; [reflexivity|]. simpl.
    repeat split; auto. intros [? [=]].
  - destruct (m !! "AWS_ACCESS_KEY_ID"%string) as [key|]; simpl.
    + destruct (m !! "AWS_SECRET_ACCESS_KEY"%string) as [secret|]; simpl.
      * destruct (boto3_client w FromSecrets (Some key) (Some secret)
                    (m !! "AWS_SESSION_TOKEN"%string)) as [c|e]; simpl;
          (eexists; split; [reflexivity|]); simpl; repeat split; auto.
      * eexists; split; [reflexivity|]. simpl.
        repeat split; auto. intros [? [=]].
    + eexists; split; [reflexivity|]. simpl.
      repeat split; auto. intros [? [=]].
  - eexists; split; [reflexivity|]. simpl.
    repeat split; auto. intros [? [=]].
Qed.

(** The second [try] block. *)
Lemma method_environ_spec (w : World Client) :
  exists t,
    method_environ py_str w
    = (t, Returned (match environ_attempt w with
                    | Some c => Return c
                    | None => Next
                    end))
    /\ probes t = []
    /\ sources_tried t
       = (if truthy (environ w !! "AWS_ACCESS_KEY_ID"%string)
          then [FromEnviron] else []).
Proof.
  unfold environ_attempt. run_monad.
  destruct (truthy (environ w !! "AWS_ACCESS_KEY_ID"%string)); simpl.
  - destruct (boto3_client w FromEnviron _ _ _) as [c|e]; simpl;
      (eexists; split; [reflexivity|]); simpl; auto.
  - eexists; split; [reflexivity|]. simpl. auto.
Qed.

(** The third [try] block. *)
Lemma method_default_spec (w : World Client) :
  exists t,
    method_default py_str w = (t, Returned (default_attempt w))
    /\ sources_tried t = [FromDefault]
    /\ (forall n, n ∈ probes t -> n = 1).
Proof.
  unfold default_attempt. run_monad.
  destruct (boto3_client w FromDefault None None None) as [c|e]; simpl.
  - destruct (list_agents w c 1) as [[]|e]; simpl;
      (eexists; split; [reflexivity|]); simpl; split; auto;
      intros n Hn; apply list_elem_of_singleton in Hn; exact Hn.
  - eexists; split; [reflexivity|]. simpl. split; auto.
    intros n Hn. inversion Hn.
Qed.

(** C3: [initialize_aws_client] never raises and returns the client of
    the first source that gives one, trying the secret store, then the
    environment variables, then the default credentials with one
    [list_agents] call for at most one agent, and [None] when all three
    fail; a source is tried at most once and in that order, and no source
    after the one that succeeded is tried. *)
Theorem initialize_aws_client_resolves (w : World Client) :
  snd (initialize_aws_client py_str w) = Returned (resolve w)
  /\ sublist (sources_tried (fst (initialize_aws_client py_str w)))
       [FromSecrets; FromEnviron; FromDefault]
  /\ (is_Some (secrets_attempt w) ->
      sources_tried (fst (initialize_aws_client py_str w)) = [FromSecrets]
      /\ probes (fst (initialize_aws_client py_str w)) = [])
  /\ (secrets_attempt w = None -> is_Some (environ_attempt w) ->
      last (sources_tried (fst (initialize_aws_client py_str w))) = Some FromEnviron
      /\ probes (fst (initialize_aws_client py_str w)) = [])
  /\ (secrets_attempt w = None -> environ_attempt w = None ->
      last (sources_tried (fst (initialize_aws_client py_str w))) = Some FromDefault
      /\ (truthy (environ w !! "AWS_ACCESS_KEY_ID"%string) = true ->
          FromEnviron ∈ sources_tried (fst (initialize_aws_client py_str w)))
      /\ forall n, n ∈ probes (fst (initialize_aws_client py_str w)) -> n = 1).
Proof.
  destruct (method_secrets_spec w) as (t1 & E1 & P1 & S1 & S1').
  destruct (method_environ_spec w) as (t2 & E2 & P2 & S2).
  destruct (method_default_spec w) as (t3 & E3 & S3 & P3).
  unfold initialize_aws_client, resolve, bind, ret. rewrite E1.
  destruct (secrets_attempt w) as [c1|] eqn:A1; simpl.
  - rewrite app_nil_r, P1, S1' by eauto.
    split; [reflexivity|]. split; [repeat constructor|].
    split; [auto|]. split; [discriminate|discriminate].
  - rewrite E2. destruct (environ_attempt w) as [c2|] eqn:A2; simpl.
    + rewrite app_nil_r, sources_tried_app, probes_app, P1, P2, S2.
      assert (T : truthy (environ w !! "AWS_ACCESS_KEY_ID"%string) = true).
      { unfold environ_attempt in A2.
        destruct (truthy (environ w !! "AWS_ACCESS_KEY_ID"%string));
          [reflexivity|discriminate]. }
      rewrite T. split; [reflexivity|].
      split.
      { destruct S1 as [-> | ->]; simpl; repeat constructor. }
      split; [intros [? [=]]|].
      split; [|discriminate].
      intros _ _. split; [|reflexivity].
      destruct S1 as [-> | ->]; reflexivity.
    + rewrite E3; simpl.
      rewrite !sources_tried_app, !probes_app, P1, P2, S2, S3. simpl.
      split; [reflexivity|].
      split.
      { destruct S1 as [-> | ->];
          destruct (truthy (environ w !! "AWS_ACCESS_KEY_ID"%string));
          simpl; repeat constructor. }
      split; [intros [? [=]]|].
      split; [intros _ [? [=]]|].
      intros _ _. split.
      { rewrite app_assoc. apply last_snoc. }
      split; [|exact P3].
      intros ->. apply elem_of_app. right.
      apply elem_of_app. left. apply list_elem_of_singleton. reflexivity.
Qed.

(** C6: [get_agent_config] returns both identifiers from the secret
    store when both reads succeed there, and otherwise, when either read
    raises, both from the environment variables; it never pairs one
    identifier of the store with one of the environment. *)
Theorem get_agent_config_all_or_nothing (w : World Client) :
  (exists a b,
      secrets_getitem w "AGENT_ID" = Returned a
      /\ secrets_getitem w "AGENT_ALIAS_ID" = Returned b
      /\ get_agent_config w = (Some a, Some b))
  \/ ((exists e, secrets_getitem w "AGENT_ID" = Raised e
                 \/ secrets_getitem w "AGENT_ALIAS_ID" = Raised e)
      /\ get_agent_config w
         = (getenv w "AGENT_ID", getenv w "AGENT_ALIAS_ID")).
Proof.
  unfold get_agent_config, config_try, config_except.
  destruct (secrets_getitem w "AGENT_ID") as [a|e] eqn:Ea.
  - destruct (secrets_getitem w "AGENT_ALIAS_ID") as [b|e] eqn:Eb; simpl.
    + left. eauto.
    + right. eauto.
  - right. simpl. eauto.
Qed.

(** ** Session state *)

Ltac run_script :=
  unfold interact, script_pass, then_, new_session_button,
    clear_chat_button, chat_page, chat_input, continue.

(** The AWS panel of the sidebar acts on its own two buttons only. *)
Lemma aws_status_passes (w : World Client) (ev : ui_event) (s : SessionState Client) :
  ev <> PressInitialize -> ev <> PressRetry ->
  aws_status py_str w ev s = (s, [], None).
Proof.
  intros H1 H2. unfold aws_status, continue.
  destruct (client_initialized s); simpl.
  - destruct (client s); [reflexivity|]. destruct ev; congruence.
  - destruct ev; congruence.
Qed.

(** A run with no widget pressed leaves the session state as it was. *)
Lemma idle_pass (w : World Client) (s : SessionState Client) :
  state_after (script_pass py_str w Idle s) = s.
Proof.
  run_script. rewrite aws_status_passes by discriminate.
  destruct (client_initialized s); simpl; [|reflexivity].
  destruct (client s); simpl; [|reflexivity].
  destruct (get_agent_config w) as [[[|a aid]|] [[|b alias]|]]; reflexivity.
Qed.

(** C10: Clear Chat replaces [messages] by the empty list and leaves
    [session_id], [client] and [client_initialized] as they were; New
    Session replaces [session_id] by a new identifier and [messages] by
    the empty list in the same step, and leaves the two client fields as
    they were. *)
Theorem clear_chat_and_new_session (w : World Client) (s : SessionState Client) :
  interact py_str w PressClearChat s
  = {| session_id := session_id s; messages := [];
       client_initialized := client_initialized s; client := client s |}
  /\ interact py_str w PressNewSession s
     = {| session_id := uuid4 w; messages := [];
          client_initialized := client_initialized s; client := client s |}.
Proof.
  split.
  - assert (E : script_pass py_str w PressClearChat s
                = {| state_after := set_messages [] s; effects := [];
                     ending_of := Rerun; offered := None |}).
    { run_script. rewrite aws_status_passes by discriminate. reflexivity. }
    unfold interact. rewrite E. simpl. apply idle_pass.
  - assert (E : script_pass py_str w PressNewSession s
                = {| state_after := set_messages [] (set_session_id (uuid4 w) s);
                     effects := []; ending_of := Rerun; offered := None |})
      by reflexivity.
    unfold interact. rewrite E. simpl. apply idle_pass.
Qed.

(** One turn that reaches the invoker appends the prompt and then the
    reply, and the session stays able to chat. *)
Lemma chat_turn (w : World Client) (prompt : str) (s : SessionState Client) :
  ready s -> reaches_invoker (w, prompt) ->
  exists reply,
    interact py_str w (SubmitPrompt prompt) s
    = append_message {| msg_role := assistant; content := reply |}
        (append_message {| msg_role := user; content := prompt |} s).
Proof.
  intros [Hi [c Hc]] (Ha & Hb & Hp). simpl in Ha, Hb, Hp.
  run_script. rewrite aws_status_passes by discriminate.
  simpl. rewrite Hi, Hc. simpl.
  destruct (get_agent_config w) as [[[|a aid]|] [[|b alias]|]];
    simpl in Ha, Hb; try discriminate.
  rewrite Hp.
  destruct (generate_response_never_raises_aux w c prompt (a :: aid) (b :: alias)
              (session_id s))
    as (t & reply & ->).
  exists reply. reflexivity.
Qed.

(** Submitting a prompt never touches what is already in the history. *)
Lemma submit_extends (w : World Client) (prompt : str) (s : SessionState Client) :
  messages s `prefix_of` messages (interact py_str w (SubmitPrompt prompt) s).
Proof.
  run_script. rewrite aws_status_passes by discriminate.
  destruct (client_initialized s); simpl; [|reflexivity].
  destruct (client s) as [c|]; simpl; [|reflexivity].
  destruct (get_agent_config w) as [[[|a aid]|] [[|b alias]|]]; simpl;
    try reflexivity.
  destruct prompt as [|ch prompt]; simpl; [reflexivity|].
  destruct (generate_response py_str w c (ch :: prompt) (a :: aid) (b :: alias) _)
    as [t [reply|e]]; simpl.
  - rewrite <- app_assoc. apply prefix_app_r. reflexivity.
  - apply prefix_app_r. reflexivity.
Qed.

Lemma converse_app (a b : list (World Client * str)) (s : SessionState Client) :
  converse py_str (a ++ b) s = converse py_str b (converse py_str a s).
Proof.
  revert s; induction a as [|[w p] a IH]; intros s; simpl; [reflexivity|].
  apply IH.
Qed.

(** A conversation of turns that reach the invoker appends one
    prompt-reply pair per turn. *)
Lemma converse_transcript (turns : list (World Client * str)) (s : SessionState Client) :
  ready s -> Forall reaches_invoker turns ->
  exists replies,
    length replies = length turns
    /\ messages (converse py_str turns s)
       = messages s ++ transcript (zip (map snd turns) replies)
    /\ ready (converse py_str turns s).
Proof.
  revert s; induction turns as [|[w p] turns IH]; intros s Hs Hall.
  - exists []. simpl. rewrite app_nil_r. auto.
  - inversion Hall as [|? ? Hturn Hrest]; subst.
    destruct (chat_turn w p s Hs Hturn) as [reply E].
    simpl. rewrite E.
    destruct (IH (append_message {| msg_role := assistant; content := reply |}
                    (append_message {| msg_role := user; content := p |} s)))
      as (replies & Hlen & Hmsg & Hready); [exact Hs|exact Hrest|].
    exists (reply :: replies). simpl. split; [congruence|].
    split; [|exact Hready].
    rewrite Hmsg. simpl. rewrite <- !app_assoc. reflexivity.
Qed.

Lemma transcript_length (l : list (str * str)) :
  length (transcript l) = (2 * length l)%nat.
Proof. induction l as [|x l IH]; simpl; [reflexivity|]. simpl in IH. lia. Qed.

Lemma transcript_alternates (l : list (str * str)) (i : nat) (m : Message) :
  transcript l !! i = Some m ->
  msg_role m = if Nat.even i then user else assistant.
Proof.
  revert i; induction l as [|x l IH]; intros i; simpl; [discriminate|].
  destruct i as [|[|i]]; simpl.
  - intros [= <-]. reflexivity.
  - intros [= <-]. reflexivity.
  - apply IH.
Qed.

(** C7: starting from an empty history, after [N] successive turns that
    reach the invoker [messages] has [2N] entries, the entries at even
    positions are the user's and those at odd positions the assistant's,
    and the history after any number of the turns is a prefix of the
    history after all of them; a submitted prompt never changes an entry
    already in the history. *)
Theorem history_invariant (turns : list (World Client * str)) (s : SessionState Client) :
  messages s = [] -> ready s -> Forall reaches_invoker turns ->
  length (messages (converse py_str turns s)) = (2 * length turns)%nat
  /\ (forall i m,
        messages (converse py_str turns s) !! i = Some m ->
        msg_role m = if Nat.even i then user else assistant)
  /\ (forall k,
        messages (converse py_str (take k turns) s)
        `prefix_of` messages (converse py_str turns s))
  /\ (forall (w : World Client) (prompt : str) (s0 : SessionState Client),
        messages s0 `prefix_of` messages (interact py_str w (SubmitPrompt prompt) s0)).
Proof.
  intros Hm Hs Hall.
  destruct (converse_transcript turns s Hs Hall) as (replies & Hlen & E & _).
  rewrite Hm in E; simpl in E. rewrite E.
  split.
  { rewrite transcript_length, length_zip, length_map. lia. }
  split; [intros i m; apply transcript_alternates|].
  split; [|intros w prompt s0; apply submit_extends].
  intros k. rewrite <- E.
  rewrite <- (take_drop k turns) at 2. rewrite converse_app.
  assert (Hk : Forall reaches_invoker (take k turns)) by (apply Forall_take; exact Hall).
  assert (Hd : Forall reaches_invoker (drop k turns)) by (apply Forall_drop; exact Hall).
  destruct (converse_transcript (take k turns) s Hs Hk) as (r1 & _ & _ & Hr).
  destruct (converse_transcript (drop k turns) _ Hr Hd) as (r2 & _ & E2 & _).
  rewrite E2. apply prefix_app_r. reflexivity.
Qed.

(** ** Chat export *)

Lemma is_digit_digit_char (n : N) : is_digit (digit_char n) = true.
Proof.
  unfold is_digit, digit_char.
  pose proof (N.mod_upper_bound n 10 ltac:(discriminate)) as H.
  revert H. generalize (n mod 10). intros r H.
  apply andb_true_iff; split; apply N.leb_le; lia.
Qed.

(** [isoformat] always writes the ISO-8601 shape. *)
Lemma isoformat_iso8601 (d : datetime) : iso8601 (isoformat d) = true.
Proof.
  unfold isoformat.
  change (lit "-") with [45]. change (lit "T") with [84].
  change (lit ":") with [58]. change (lit ".") with [46].
  destruct (microsecond d =? 0); simpl;
    rewrite !is_digit_digit_char; reflexivity.
Qed.

(** *** Reading the document back *)

(** Induction on JSON values, through the lists inside them. *)
Lemma json_nested_ind (P : json -> Prop) :
  (forall s, P (JString s)) ->
  (forall items, Forall P items -> P (JArray items)) ->
  (forall members, Forall (fun kv => P (snd kv)) members -> P (JObject members)) ->
  forall j, P j.
Proof.
  intros Hs Ha Ho. fix IH 1. intros [s|items|members].
  - apply Hs.
  - apply Ha. induction items as [|x xs IHxs]; constructor.
    + apply IH.
    + exact IHxs.
  - apply Ho. induction members as [|[k v] ms IHms]; constructor.
    + apply IH.
    + exact IHms.
Qed.

Lemma unhex_hex_digit (n : N) : unhex (hex_digit n) = Some (n mod 16).
Proof.
  unfold hex_digit, unhex.
  pose proof (N.mod_upper_bound n 16 ltac:(discriminate)) as H.
  revert H. generalize (n mod 16). intros r H. cbv zeta.
  destruct (r <? 10) eqn:E.
  - apply N.ltb_lt in E.
    replace ((48 <=? 48 + r) && (48 + r <=? 57)) with true.
    + f_equal. lia.
    + symmetry. apply andb_true_iff. split; apply N.leb_le; lia.
  - apply N.ltb_ge in E.
    replace ((48 <=? 87 + r) && (87 + r <=? 57)) with false.
    + replace ((97 <=? 87 + r) && (87 + r <=? 102)) with true.
      * f_equal. lia.
      * symmetry. apply andb_true_iff. split; apply N.leb_le; lia.
    + symmetry. apply andb_false_iff. right. apply N.leb_gt. lia.
Qed.

(** A number below 65536 is the value of its four hexadecimal digits. *)
Lemma hex4_value (n : N) :
  n < 65536 ->
  (n / 4096) mod 16 * 4096 + (n / 256) mod 16 * 256
  + (n / 16) mod 16 * 16 + n mod 16 = n.
Proof.
  intros H.
  pose proof (N.div_mod n 16 ltac:(discriminate)) as E0.
  pose proof (N.div_mod (n / 16) 16 ltac:(discriminate)) as E1.
  pose proof (N.div_mod (n / 256) 16 ltac:(discriminate)) as E2.
  pose proof (N.div_mod (n / 4096) 16 ltac:(discriminate)) as E3.
  assert (D1 : n / 16 / 16 = n / 256) by (rewrite N.Div0.div_div; reflexivity).
  assert (D2 : n / 256 / 16 = n / 4096) by (rewrite N.Div0.div_div; reflexivity).
  assert (D3 : n / 4096 / 16 = 0).
  { rewrite N.Div0.div_div. apply N.div_small. exact H. }
  rewrite D1 in E1. rewrite D2 in E2. rewrite D3 in E3.
  revert E0 E1 E2 E3.
  generalize (n mod 16) ((n / 16) mod 16) ((n / 256) mod 16)
    ((n / 4096) mod 16) (n / 16) (n / 256) (n / 4096).
  intros; lia.
Qed.

Lemma read_hex4_digits (n : N) (r : str) :
  n < 65536 ->
  read_hex4 (hex_digit (n / 4096) :: hex_digit (n / 256)
             :: hex_digit (n / 16) :: hex_digit n :: r)
  = Some (n, r).
Proof.
  intros H. unfold read_hex4. rewrite !unhex_hex_digit.
  rewrite hex4_value by exact H. reflexivity.
Qed.

Lemma land_1023 (x : N) : N.land x 0x3FF = x mod 1024.
Proof. change 0x3FF with (N.ones 10). apply N.land_ones. Qed.

Lemma lor_high (a x : N) :
  N.land a 0x3FF = 0 -> x < 1024 -> N.lor a x = a + x.
Proof.
  intros Ha Hx.
  assert (L : N.land a x = 0).
  { rewrite <- (N.mod_small x 1024) by exact Hx.
    rewrite <- land_1023. rewrite (N.land_comm x), N.land_assoc, Ha.
    apply N.land_0_l. }
  rewrite <- N.lxor_lor by exact L. symmetry. apply N.add_nocarry_lxor. exact L.
Qed.

(** The two halves of a character above U+FFFF. *)
Lemma surrogate_pair (c : N) :
  0x10000 <= c -> c < 0x110000 ->
  let n := c - 0x10000 in
  let hi := N.lor 0xD800 (N.land (N.shiftr n 10) 0x3FF) in
  let lo := N.lor 0xDC00 (N.land n 0x3FF) in
  is_high_surrogate hi = true /\ is_low_surrogate lo = true
  /\ hi < 65536 /\ lo < 65536
  /\ 0x10000 + (hi - 0xD800) * 1024 + (lo - 0xDC00) = c.
Proof.
  intros H1 H2 n hi lo.
  assert (Hn : n < 1048576) by (unfold n; lia).
  pose proof (N.div_mod n 1024 ltac:(discriminate)) as E.
  pose proof (N.mod_upper_bound n 1024 ltac:(discriminate)) as M.
  assert (Q : n / 1024 < 1024).
  { apply N.Div0.div_lt_upper_bound. exact Hn. }
  assert (Ehi : hi = 0xD800 + n / 1024).
  { unfold hi. rewrite land_1023, N.shiftr_div_pow2.
    change (2 ^ 10) with 1024. rewrite (N.mod_small (n / 1024)) by exact Q.
    apply lor_high; [reflexivity|exact Q]. }
  assert (Elo : lo = 0xDC00 + n mod 1024).
  { unfold lo. rewrite land_1023. apply lor_high; [reflexivity|exact M]. }
  rewrite Ehi, Elo. unfold is_high_surrogate, is_low_surrogate.
  revert E M Q. generalize (n / 1024) (n mod 1024). intros q m E M Q.
  repeat split.
  - apply andb_true_iff; split; apply N.leb_le; lia.
  - apply andb_true_iff; split; apply N.leb_le; lia.
  - lia.
  - lia.
  - unfold n in E. lia.
Qed.

Lemma parse_string_backslash (f : nat) (r : str) :
  parse_string (S f) (0x5C :: r)
  = match read_escape r with
    | None => None
    | Some (x, r') =>
      match parse_string f r' with
      | Some (t, r'') => Some (x :: t, r'')
      | None => None
      end
    end.
Proof. reflexivity. Qed.

Lemma read_escape_u (r : str) :
  read_escape (117 :: r)
  = match read_hex4 r with
    | None => None
    | Some (u1, r1) =>
      if is_high_surrogate u1 then
        match r1 with
        | c1 :: c2 :: r2 =>
          if (c1 =? 0x5C) && (c2 =? 117) then
            match read_hex4 r2 with
            | None => None
            | Some (u2, r3) =>
              if is_low_surrogate u2
              then Some (0x10000 + (u1 - 0xD800) * 1024 + (u2 - 0xDC00), r3)
              else Some (u1, r1)
            end
          else Some (u1, r1)
        | _ => Some (u1, r1)
        end
      else Some (u1, r1)
    end.
Proof. reflexivity. Qed.

Lemma u_escape_cons (n : N) (r : str) :
  u_escape n ++ r
  = 0x5C :: 117 :: hex_digit (n / 4096) :: hex_digit (n / 256)
    :: hex_digit (n / 16) :: hex_digit n :: r.
Proof. reflexivity. Qed.

(** The reader undoes the escape of one character. *)
Lemma parse_string_escape (c : N) (f : nat) (rest : str) :
  scalar c = true ->
  parse_string (S f) (escape_char c ++ rest)
  = match parse_string f rest with
    | Some (t, r) => Some (c :: t, r)
    | None => None
    end.
Proof.
  intros Hs. unfold scalar in Hs.
  apply andb_true_iff in Hs as [Hlt Hns]. apply N.ltb_lt in Hlt.
  apply negb_true_iff in Hns.
  unfold escape_char.
  destruct (c =? 34) eqn:E1; [apply N.eqb_eq in E1; subst c; reflexivity|].
  destruct (c =? 92) eqn:E2; [apply N.eqb_eq in E2; subst c; reflexivity|].
  destruct (c =? 10) eqn:E3; [apply N.eqb_eq in E3; subst c; reflexivity|].
  destruct (c =? 13) eqn:E4; [apply N.eqb_eq in E4; subst c; reflexivity|].
  destruct (c =? 9) eqn:E5; [apply N.eqb_eq in E5; subst c; reflexivity|].
  destruct (c =? 8) eqn:E6; [apply N.eqb_eq in E6; subst c; reflexivity|].
  destruct (c =? 12) eqn:E7; [apply N.eqb_eq in E7; subst c; reflexivity|].
  destruct ((32 <=? c) && (c <=? 126)) eqn:E8.
  - apply andb_true_iff in E8 as [L _]. apply N.leb_le in L.
    assert (E9 : (c <? 32) = false) by (apply N.ltb_ge; exact L).
    change ([c] ++ rest) with (c :: rest).
    cbn [parse_string]. rewrite E1, E2, E9. reflexivity.
  - destruct (c <? 65536) eqn:E9.
    + apply N.ltb_lt in E9.
      rewrite u_escape_cons, parse_string_backslash, read_escape_u.
      rewrite read_hex4_digits by exact E9.
      unfold is_high_surrogate.
      replace ((55296 <=? c) && (c <=? 56319)) with false; [reflexivity|].
      symmetry. apply andb_false_iff.
      apply andb_false_iff in Hns as [H|H]; [left; exact H|].
      right. apply N.leb_gt. apply N.leb_gt in H. lia.
    + apply N.ltb_ge in E9.
      destruct (surrogate_pair c E9 Hlt) as (Hhi & Hlo & Bhi & Blo & Ec).
      cbv zeta in Hhi, Hlo, Bhi, Blo, Ec. cbv zeta.
      rewrite <- app_assoc.
      rewrite u_escape_cons, parse_string_backslash, read_escape_u.
      rewrite read_hex4_digits by exact Bhi.
      rewrite Hhi. rewrite u_escape_cons.
      change ((92 =? 92) && (117 =? 117)) with true. cbv iota.
      rewrite read_hex4_digits by exact Blo.
      rewrite Hlo, Ec. reflexivity.
Qed.

(** The reader undoes the escaping of a text. *)
Lemma parse_string_encoded (s : str) :
  forall (fuel : nat) (rest : str),
    (length s < fuel)%nat -> scalar_text s = true ->
    parse_string fuel (flat_map escape_char s ++ 0x22 :: rest) = Some (s, rest).
Proof.
  induction s as [|c s IH]; intros fuel rest Hf Hs.
  - destruct fuel; [inversion Hf|]. reflexivity.
  - destruct fuel; [inversion Hf|].
    simpl in Hs. apply andb_true_iff in Hs as [Hc Hs'].
    cbn [flat_map]. rewrite <- app_assoc.
    rewrite parse_string_escape by exact Hc.
    rewrite IH; [reflexivity| simpl in Hf; lia | exact Hs'].
Qed.

Lemma skip_ws_spaces (n : nat) (s : str) : skip_ws (repeat 32 n ++ s) = skip_ws s.
Proof. induction n as [|n IH]; [reflexivity|exact IH]. Qed.

Lemma skip_ws_newline_indent (k : nat) (s : str) :
  skip_ws (newline_indent k ++ s) = skip_ws s.
Proof. unfold newline_indent. simpl. apply skip_ws_spaces. Qed.

Lemma parse_value_ws (fuel : nat) (s s' : str) :
  skip_ws s = skip_ws s' -> parse_value fuel s = parse_value fuel s'.
Proof. intros H. destruct fuel; [reflexivity|]. simpl. rewrite H. reflexivity. Qed.

Lemma parse_items_ws (fuel : nat) (s s' : str) :
  skip_ws s = skip_ws s' -> parse_items fuel s = parse_items fuel s'.
Proof.
  intros H. destruct fuel; [reflexivity|]. simpl.
  rewrite (parse_value_ws fuel s s' H). reflexivity.
Qed.

Lemma parse_members_ws (fuel : nat) (s s' : str) :
  skip_ws s = skip_ws s' -> parse_members fuel s = parse_members fuel s'.
Proof. intros H. destruct fuel; [reflexivity|]. simpl. rewrite H. reflexivity. Qed.

(** A written value starts with a quote, a bracket or a brace. *)
Lemma dumps_at_head (level : nat) (j : json) :
  exists c t, dumps_at level j = c :: t /\ (c = 34 \/ c = 91 \/ c = 123).
Proof.
  destruct j as [s|[|x xs]|[|x xs]]; simpl; eauto 10.
Qed.

Lemma skip_ws_dumps (level : nat) (j : json) (rest : str) :
  exists c t, skip_ws (dumps_at level j ++ rest) = c :: t ++ rest
              /\ dumps_at level j = c :: t
              /\ (c = 34 \/ c = 91 \/ c = 123).
Proof.
  destruct (dumps_at_head level j) as (c & t & E & H).
  exists c, t. rewrite E. split; [|auto].
  destruct H as [-> | [-> | ->]]; reflexivity.
Qed.

Lemma parse_items_join (items : list json) :
  Forall reads_back items -> items <> [] ->
  forall (level fuel : nat) (rest : str),
    (list_sum (map (fun x => 1 + json_fuel x)%nat items) <= fuel)%nat ->
    parse_items fuel
      (join (lit "," ++ newline_indent (S level))
         (map (dumps_at (S level)) items)
       ++ newline_indent level ++ lit "]" ++ rest)
    = Some (items, rest).
Proof.
  induction 1 as [|x xs Hx Hxs IH]; [congruence|].
  intros _ level fuel rest Hf. simpl in Hf.
  destruct fuel as [|f]; [lia|].
  destruct xs as [|y l].
  - cbn [map join]. change (parse_items (S f) ?s)
      with (match parse_value f s with
            | None => None
            | Some (v, r) =>
              match skip_ws r with
              | [] => None
              | c :: r' =>
                if c =? 44 then
                  match parse_items f r' with
                  | Some (vs, r'') => Some (v :: vs, r'')
                  | None => None
                  end
                else if c =? 93 then Some ([v], r')
                else None
              end
            end).
    rewrite Hx by lia.
    rewrite skip_ws_newline_indent. reflexivity.
  - cbn [map join]. rewrite <- !app_assoc.
    change (parse_items (S f) ?s)
      with (match parse_value f s with
            | None => None
            | Some (v, r) =>
              match skip_ws r with
              | [] => None
              | c :: r' =>
                if c =? 44 then
                  match parse_items f r' with
                  | Some (vs, r'') => Some (v :: vs, r'')
                  | None => None
                  end
                else if c =? 93 then Some ([v], r')
                else None
              end
            end).
    rewrite Hx by lia.
    change (lit "," ++ ?r) with (44 :: r).
    cbn [skip_ws is_ws N.eqb Pos.eqb orb]. 
    rewrite (parse_items_ws f _ _ (skip_ws_newline_indent (S level) _)).
    specialize (IH ltac:(discriminate) level f rest).
    cbn [map join] in IH. rewrite <- !app_assoc in IH.
    rewrite IH by (simpl in Hf |- *; lia).
    reflexivity.
Qed.

Lemma parse_members_step (f : nat) (k : str) (v : json) (level : nat) (tail : str) :
  scalar_text k = true -> (length k < f)%nat ->
  reads_back v -> (json_fuel v <= f)%nat ->
  parse_members (S f) (encode_string k ++ lit ": " ++ dumps_at level v ++ tail)
  = match skip_ws tail with
    | [] => None
    | c :: r' =>
      if c =? 44 then
        match parse_members f r' with
        | Some (ms, r'') => Some ((k, v) :: ms, r'')
        | None => None
        end
      else if c =? 125 then Some ([(k, v)], r')
      else None
    end.
Proof.
  intros Hk Hlen Hv Hf.
  unfold encode_string. cbn [app]. rewrite <- !app_assoc.
  change (parse_members (S f) (quote :: flat_map escape_char k ++ ?tl))
    with (match parse_string f (flat_map escape_char k ++ tl) with
          | None => None
          | Some (k, r1) =>
            match skip_ws r1 with
            | [] => None
            | colon :: r2 =>
              if colon =? 58 then
                match parse_value f r2 with
                | None => None
                | Some (v, r) =>
                  match skip_ws r with
                  | [] => None
                  | c :: r' =>
                    if c =? 44 then
                      match parse_members f r' with
                      | Some (ms, r'') => Some ((k, v) :: ms, r'')
                      | None => None
                      end
                    else if c =? 125 then Some ([(k, v)], r')
                    else None
                  end
                end
              else None
            end
          end).
  change ([quote] ++ lit ": " ++ dumps_at level v ++ tail)
    with (0x22 :: 58 :: 32 :: dumps_at level v ++ tail).
  rewrite parse_string_encoded by assumption.
  change (skip_ws (58 :: ?r)) with (58 :: r).
  change (58 =? 58) with true. cbv iota.
  rewrite (parse_value_ws f (32 :: dumps_at level v ++ tail)
             (dumps_at level v ++ tail) eq_refl).
  rewrite Hv by exact Hf. reflexivity.
Qed.

Lemma parse_members_join (members : list (str * json)) :
  Forall (fun kv => scalar_text (fst kv) = true /\ reads_back (snd kv)) members ->
  members <> [] ->
  forall (level fuel : nat) (rest : str),
    (list_sum (map (fun kv => 2 + length (fst kv) + json_fuel (snd kv))%nat
                   members) <= fuel)%nat ->
    parse_members fuel
      (join (lit "," ++ newline_indent (S level))
         (map (fun kv => match kv with
                         | (k, v) =>
                           encode_string k ++ lit ": " ++ dumps_at (S level) v
                         end) members)
       ++ newline_indent level ++ lit "}" ++ rest)
    = Some (members, rest).
Proof.
  induction 1 as [|[k v] xs [Hk Hv] Hxs IH]; [congruence|].
  intros _ level fuel rest Hf. simpl in Hf, Hk, Hv.
  destruct fuel as [|f]; [lia|].
  destruct xs as [|y l].
  - cbn [map join]. rewrite <- !app_assoc.
    rewrite parse_members_step by (auto; lia).
    rewrite skip_ws_newline_indent. reflexivity.
  - cbn [map join]. rewrite <- !app_assoc.
    rewrite parse_members_step by (auto; lia).
    change (lit "," ++ ?r) with (44 :: r).
    change (skip_ws (44 :: ?r)) with (44 :: r).
    change (44 =? 44) with true. cbv iota.
    rewrite (parse_members_ws f _ _ (skip_ws_newline_indent (S level) _)).
    specialize (IH ltac:(discriminate) level f rest).
    cbn [map join] in IH. rewrite <- !app_assoc in IH.
    rewrite IH by (simpl in Hf |- *; lia).
    reflexivity.
Qed.

(** Every value of scalar texts is read back from what [dumps_at] writes. *)
Lemma dumps_at_reads_back (j : json) : scalar_json j = true -> reads_back j.
Proof.
  induction j as [s|items IH|members IH] using json_nested_ind; intros Hs.
  - intros level fuel rest Hf. simpl in Hf, Hs.
    destruct fuel as [|f]; [lia|].
    cbn [dumps_at]. unfold encode_string. cbn [app]. rewrite <- !app_assoc.
    change (parse_value (S f) (quote :: flat_map escape_char s ++ ?r))
      with (match parse_string f (flat_map escape_char s ++ r) with
            | Some (t, r') => Some (JString t, r')
            | None => None
            end).
    change ([quote] ++ rest) with (0x22 :: rest).
    rewrite parse_string_encoded by (auto; lia). reflexivity.
  - intros level fuel rest Hf.
    destruct items as [|x xs].
    { destruct fuel as [|f]; [simpl in Hf; lia|]. reflexivity. }
    assert (R : Forall reads_back (x :: xs)).
    { simpl in Hs. rewrite List.Forall_forall in IH |- *.
      intros y Hy. apply IH; [exact Hy|].
      change (forallb scalar_json (x :: xs) = true) in Hs.
      rewrite forallb_forall in Hs. apply Hs. exact Hy. }
    cbn [json_fuel] in Hf. destruct fuel as [|f]; [lia|].
    cbn [dumps_at]. rewrite <- !app_assoc.
    change (lit "[" ++ ?r) with (91 :: r).
    destruct (skip_ws_dumps (S level) x
                (match xs with
                 | [] => []
                 | _ :: _ => (lit "," ++ newline_indent (S level))
                             ++ join (lit "," ++ newline_indent (S level))
                                  (map (dumps_at (S level)) xs)
                 end ++ newline_indent level ++ lit "]" ++ rest))
      as (c & t & E & Ed & Hc).
    assert (Ej : forall tail,
               join (lit "," ++ newline_indent (S level))
                 (map (dumps_at (S level)) (x :: xs)) ++ tail
               = dumps_at (S level) x
                 ++ match xs with
                    | [] => []
                    | _ :: _ => (lit "," ++ newline_indent (S level))
                                ++ join (lit "," ++ newline_indent (S level))
                                     (map (dumps_at (S level)) xs)
                    end ++ tail).
    { intros tail. destruct xs; cbn [map join]; rewrite <- ?app_assoc; reflexivity. }
    change (parse_value (S f) (91 :: ?r))
      with (match skip_ws r with
            | [] => None
            | c' :: r' =>
              if c' =? 93 then Some (JArray [], r')
              else
                match parse_items f r with
                | Some (vs, r'') => Some (JArray vs, r'')
                | None => None
                end
            end).
    rewrite skip_ws_newline_indent, Ej, E.
    replace (c =? 93) with false
      by (destruct Hc as [-> | [-> | ->]]; reflexivity).
    rewrite (parse_items_ws f _ _ (skip_ws_newline_indent (S level) _)).
    rewrite <- Ej.
    rewrite parse_items_join; [reflexivity|exact R|discriminate|lia].
  - intros level fuel rest Hf.
    destruct members as [|[k v] xs].
    { destruct fuel as [|f]; [simpl in Hf; lia|]. reflexivity. }
    assert (R : Forall (fun kv => scalar_text (fst kv) = true
                                  /\ reads_back (snd kv)) ((k, v) :: xs)).
    { rewrite List.Forall_forall in IH |- *.
      intros y Hy.
      change (forallb (fun kv => scalar_text (fst kv) && scalar_json (snd kv))
                ((k, v) :: xs) = true) in Hs.
      rewrite forallb_forall in Hs. specialize (Hs y Hy).
      apply andb_true_iff in Hs as [H1 H2]. split; [exact H1|].
      apply IH; assumption. }
    cbn [json_fuel] in Hf. destruct fuel as [|f]; [lia|].
    cbn [dumps_at]. rewrite <- !app_assoc.
    change (lit "{" ++ ?r) with (123 :: r).
    change (parse_value (S f) (123 :: ?r))
      with (match skip_ws r with
            | [] => None
            | c' :: r' =>
              if c' =? 125 then Some (JObject [], r')
              else
                match parse_members f r with
                | Some (ms, r'') => Some (JObject ms, r'')
                | None => None
                end
            end).
    rewrite skip_ws_newline_indent.
    rewrite (parse_members_ws f _ _ (skip_ws_newline_indent (S level) _)).
    rewrite parse_members_join; [|exact R|discriminate|lia].
    assert (Eh : exists r',
               skip_ws
                 (join (lit "," ++ newline_indent (S level))
                    (map (fun kv => match kv with
                                    | (k, v) =>
                                      encode_string k ++ lit ": "
                                      ++ dumps_at (S level) v
                                    end) ((k, v) :: xs))
                  ++ newline_indent level ++ lit "}" ++ rest)
               = 34 :: r').
    { destruct xs; cbn [map join]; unfold encode_string;
        rewrite <- ?app_assoc; eexists; reflexivity. }
    destruct Eh as [r' ->]. reflexivity.
Qed.

Lemma escape_char_length (c : N) : (1 <= length (escape_char c))%nat.
Proof.
  unfold escape_char.
  repeat match goal with
         | |- context [if ?b then _ else _] => destruct b
         end;
    vm_compute; lia.
Qed.

Lemma flat_map_escape_length (s : str) :
  (length s <= length (flat_map escape_char s))%nat.
Proof.
  induction s as [|c s IH]; simpl; [lia|].
  rewrite length_app. pose proof (escape_char_length c). lia.
Qed.

Lemma join_length (sep : str) (parts : list str) :
  (1 <= length sep)%nat ->
  (list_sum (map (fun p => 1 + length p)%nat parts)
   <= 1 + length (join sep parts))%nat.
Proof.
  intros Hsep. induction parts as [|x [|y l] IH]; simpl in *; [lia|lia|].
  rewrite !length_app. lia.
Qed.

Lemma list_sum_le {A} (f g : A -> nat) (l : list A) :
  Forall (fun x => (f x <= g x)%nat) l ->
  (list_sum (map f l) <= list_sum (map g l))%nat.
Proof. induction 1; simpl; lia. Qed.

(** The written text is long enough to serve as the reader's fuel. *)
Lemma json_fuel_length (j : json) :
  forall level, (json_fuel j <= length (dumps_at level j))%nat.
Proof.
  induction j as [s|items IH|members IH] using json_nested_ind; intros level.
  - cbn [json_fuel dumps_at]. unfold encode_string. simpl.
    rewrite length_app. simpl.
    pose proof (flat_map_escape_length s). lia.
  - destruct items as [|x xs]; [simpl; lia|].
    cbn [json_fuel dumps_at]. rewrite !length_app.
    pose proof (join_length (lit "," ++ newline_indent (S level))
                  (map (dumps_at (S level)) (x :: xs))
                  ltac:(rewrite length_app; simpl; lia)) as J.
    rewrite map_map in J.
    assert (L : (list_sum (map (fun y => 1 + json_fuel y)%nat (x :: xs))
                 <= list_sum (map (fun y => 1 + length (dumps_at (S level) y))%nat
                                  (x :: xs)))%nat).
    { apply list_sum_le. rewrite List.Forall_forall in IH |- *.
      intros y Hy. specialize (IH y Hy (S level)). lia. }
    change (length (lit "[")) with 1%nat. change (length (lit "]")) with 1%nat.
    unfold newline_indent at 1 3. simpl length at 1. lia.
  - destruct members as [|x xs]; [simpl; lia|].
    cbn [json_fuel dumps_at]. rewrite !length_app.
    pose proof (join_length (lit "," ++ newline_indent (S level))
                  (map (fun kv => match kv with
                                  | (k, v) =>
                                    encode_string k ++ lit ": "
                                    ++ dumps_at (S level) v
                                  end) (x :: xs))
                  ltac:(rewrite length_app; simpl; lia)) as J.
    rewrite map_map in J.
    assert (L : (list_sum (map (fun kv => 2 + length (fst kv)
                                          + json_fuel (snd kv))%nat (x :: xs))
                 <= list_sum
                      (map (fun kv =>
                              1 + length (match kv with
                                          | (k, v) =>
                                            encode_string k ++ lit ": "
                                            ++ dumps_at (S level) v
                                          end))%nat (x :: xs)))%nat).
    { apply list_sum_le. rewrite List.Forall_forall in IH |- *.
      intros [k v] Hy. specialize (IH (k, v) Hy (S level)). simpl in IH.
      unfold encode_string. simpl. rewrite !length_app. simpl.
      pose proof (flat_map_escape_length k). lia. }
    change (length (lit "{")) with 1%nat. change (length (lit "}")) with 1%nat.
    unfold newline_indent at 1 3. simpl length at 1. lia.
Qed.

(** [json.loads(json.dumps(j, indent=2))] is [j]. *)
Lemma json_loads_dumps (j : json) :
  scalar_json j = true -> json_loads (json_dumps j) = Some j.
Proof.
  intros Hs. unfold json_loads, json_dumps.
  pose proof (dumps_at_reads_back j Hs 0%nat (length (dumps_at 0 j)) []
                (json_fuel_length j 0%nat)) as R.
  rewrite app_nil_r in R. rewrite R. reflexivity.
Qed.

(** *** Reading the timestamp back *)

Lemma undigits_snoc (l : str) (c : N) :
  forall acc,
    undigits acc (l ++ [c])
    = match undigits acc l with
      | Some a => undigits a [c]
      | None => None
      end.
Proof.
  induction l as [|x l IH]; intros acc; simpl; [reflexivity|].
  destruct ((48 <=? x) && (x <=? 57)); [apply IH|reflexivity].
Qed.

Lemma undigits_digit_char (a n : N) :
  undigits a [digit_char n] = Some (a * 10 + n mod 10).
Proof.
  unfold undigits, digit_char.
  pose proof (N.mod_upper_bound n 10 ltac:(discriminate)) as H.
  revert H. generalize (n mod 10). intros r H.
  replace ((48 <=? 48 + r) && (48 + r <=? 57)) with true.
  - f_equal. lia.
  - symmetry. apply andb_true_iff. split; apply N.leb_le; lia.
Qed.

(** The digits [zpad] writes stand for the number, cut to the width. *)
Lemma undigits_zpad (k : nat) :
  forall n acc,
    undigits acc (zpad k n)
    = Some (acc * 10 ^ N.of_nat k + n mod 10 ^ N.of_nat k).
Proof.
  induction k as [|k IH]; intros n acc.
  - simpl. rewrite N.mod_1_r. f_equal. lia.
  - cbn [zpad]. rewrite undigits_snoc, IH, undigits_digit_char.
    rewrite Nat2N.inj_succ, N.pow_succ_r'.
    rewrite (N.Div0.mod_mul_r n 10 (10 ^ N.of_nat k)).
    f_equal. lia.
Qed.

Lemma undigits_zpad_small (k : nat) (n : N) :
  n < 10 ^ N.of_nat k -> undigits 0 (zpad k n) = Some n.
Proof.
  intros H. rewrite undigits_zpad. rewrite N.mod_small by exact H.
  f_equal.
Qed.

(** A timestamp is read back as the time it was written from. *)
Lemma parse_isoformat_isoformat (d : datetime) :
  datetime_ok d -> parse_isoformat (isoformat d) = Some d.
Proof.
  destruct d as [y mo da h mi se us].
  intros H. unfold datetime_ok in H.
  cbn [year month day hour minute second microsecond] in H.
  destruct H as (Hy & Hmo & Hda & Hh & Hmi & Hse & Hus).
  assert (Ey : undigits 0 (zpad 4 y) = Some y)
    by (apply undigits_zpad_small; simpl; lia).
  assert (Emo : undigits 0 (zpad 2 mo) = Some mo)
    by (apply undigits_zpad_small; simpl; lia).
  assert (Eda : undigits 0 (zpad 2 da) = Some da)
    by (apply undigits_zpad_small; simpl; lia).
  assert (Eh : undigits 0 (zpad 2 h) = Some h)
    by (apply undigits_zpad_small; simpl; lia).
  assert (Emi : undigits 0 (zpad 2 mi) = Some mi)
    by (apply undigits_zpad_small; simpl; lia).
  assert (Ese : undigits 0 (zpad 2 se) = Some se)
    by (apply undigits_zpad_small; simpl; lia).
  assert (Eus : undigits 0 (zpad 6 us) = Some us)
    by (apply undigits_zpad_small; simpl; lia).
  unfold isoformat. cbn [year month day hour minute second microsecond].
  change (lit "-") with [45]. change (lit "T") with [84].
  change (lit ":") with [58]. change (lit ".") with [46].
  destruct (us =? 0) eqn:E0.
  - apply N.eqb_eq in E0. subst us.
    change (parse_isoformat _)
      with (match undigits 0 (zpad 4 y), undigits 0 (zpad 2 mo),
                  undigits 0 (zpad 2 da), undigits 0 (zpad 2 h),
                  undigits 0 (zpad 2 mi), undigits 0 (zpad 2 se),
                  Some 0 with
            | Some y, Some mo, Some da, Some ho, Some mi, Some se, Some us =>
              Some {| year := y; month := mo; day := da;
                      hour := ho; minute := mi; second := se;
                      microsecond := us |}
            | _, _, _, _, _, _, _ => None
            end).
    rewrite Ey, Emo, Eda, Eh, Emi, Ese. reflexivity.
  - change (parse_isoformat _)
      with (match undigits 0 (zpad 4 y), undigits 0 (zpad 2 mo),
                  undigits 0 (zpad 2 da), undigits 0 (zpad 2 h),
                  undigits 0 (zpad 2 mi), undigits 0 (zpad 2 se),
                  undigits 0 (zpad 6 us) with
            | Some y, Some mo, Some da, Some ho, Some mi, Some se, Some us =>
              Some {| year := y; month := mo; day := da;
                      hour := ho; minute := mi; second := se;
                      microsecond := us |}
            | _, _, _, _, _, _, _ => None
            end).
    rewrite Ey, Emo, Eda, Eh, Emi, Ese, Eus. reflexivity.
Qed.

Lemma scalar_digit_char (n : N) : scalar (digit_char n) = true.
Proof.
  unfold scalar, digit_char.
  pose proof (N.mod_upper_bound n 10 ltac:(discriminate)) as H.
  revert H. generalize (n mod 10). intros r H.
  apply andb_true_iff. split; [apply N.ltb_lt; lia|].
  apply negb_true_iff, andb_false_iff. left. apply N.leb_gt. lia.
Qed.

Lemma scalar_text_app (a b : str) :
  scalar_text (a ++ b) = scalar_text a && scalar_text b.
Proof. apply forallb_app. Qed.

Lemma scalar_zpad (k : nat) : forall n, scalar_text (zpad k n) = true.
Proof.
  induction k as [|k IH]; intros n; [reflexivity|].
  cbn [zpad]. rewrite scalar_text_app, IH. simpl.
  rewrite scalar_digit_char. reflexivity.
Qed.

Lemma scalar_isoformat (d : datetime) : scalar_text (isoformat d) = true.
Proof.
  unfold isoformat.
  change (lit "-") with [45]. change (lit "T") with [84].
  change (lit ":") with [58]. change (lit ".") with [46].
  destruct (microsecond d =? 0);
    rewrite ?scalar_text_app, ?scalar_zpad; reflexivity.
Qed.

Lemma scalar_message_json (m : Message) :
  scalar_text (content m) = true -> scalar_json (message_json m) = true.
Proof.
  intros H. unfold message_json. cbn [scalar_json forallb fst snd].
  rewrite H. destruct (msg_role m); reflexivity.
Qed.

Lemma scalar_chat_export (w : World Client) (s : SessionState Client) :
  scalar_session s -> scalar_json (chat_export w s) = true.
Proof.
  intros [Hid Hms]. unfold chat_export. cbn [scalar_json forallb fst snd].
  rewrite Hid, scalar_isoformat.
  change (scalar_text (lit "session_id")) with true.
  change (scalar_text (lit "timestamp")) with true.
  change (scalar_text (lit "messages")) with true.
  cbn [andb]. rewrite andb_true_r.
  induction Hms as [|m ms Hm Hms IH]; [reflexivity|].
  cbn [map forallb]. rewrite scalar_message_json by exact Hm. exact IH.
Qed.

(** C8: when the history is not empty the page offers a download whose
    content is [json.dumps] of the object with exactly the members
    [session_id], [timestamp] and [messages], in this order: the session
    identifier, the current time in ISO-8601 form, and the messages, each
    with its role and content.  The content is a JSON document: when the
    session identifier and the messages are texts of Unicode scalar
    values, [json.loads] reads that object back from it; and for a time
    in the ranges of [datetime] the timestamp reads back as that time.
    The file name is [chat_], the first eight characters of the session
    identifier, and [.json]. *)
Theorem chat_export_document (w : World Client) (s : SessionState Client) :
  let record :=
    JObject
      [(lit "session_id", JString (session_id s));
       (lit "timestamp", JString (isoformat (now w)));
       (lit "messages",
        JArray (map (fun m =>
                       JObject
                         [(lit "role", JString (role_str (msg_role m)));
                          (lit "content", JString (content m))])
                  (messages s)))] in
  messages s <> [] ->
  exists d,
    export_chat w s = Some d
    /\ data d = json_dumps record
    /\ (scalar_session s -> json_loads (data d) = Some record)
    /\ iso8601 (isoformat (now w)) = true
    /\ (datetime_ok (now w) ->
        parse_isoformat (isoformat (now w)) = Some (now w))
    /\ file_name d = lit "chat_" ++ firstn 8 (session_id s) ++ lit ".json"
    /\ mime d = lit "application/json"
    /\ (forall ev s0 d0,
          offered (script_pass py_str w ev s0) = Some d0 ->
          export_chat w (state_after (script_pass py_str w ev s0)) = Some d0).
Proof.
  intros record Hm.
  assert (R : chat_export w s = record) by reflexivity.
  unfold export_chat.
  destruct (messages s) as [|m ms] eqn:E; [contradiction|].
  eexists. split; [reflexivity|]. cbn [data file_name mime].
  split; [rewrite R; reflexivity|].
  split.
  { intros Hs. rewrite <- R. apply json_loads_dumps.
    apply scalar_chat_export. exact Hs. }
  split; [apply isoformat_iso8601|].
  split; [apply parse_isoformat_isoformat|].
  split; [reflexivity|]. split; [reflexivity|].
  intros ev s0 d0. unfold script_pass.
  destruct (then_ _ _ s0) as [[s' t] [e|]]; simpl; [discriminate|auto].
Qed.

(** ** More on the response extractor *)

(** What the loop body does with an event: it returns the text of a
    chunk, or raises; it never asks for the next event. *)
Lemma process_response_body_cases (ev : event) :
  (exists text (chunk : payload) b,
      process_response_body ev = Returned (Return text)
      /\ ev !! "chunk"%string = Some chunk
      /\ chunk !! "bytes"%string = Some (VBytes b)
      /\ utf8_decode b = Some text)
  \/ (exists e,
         process_response_body ev = Raised e
         /\ extraction_cause (Yield ev) e).
Proof.
  unfold process_response_body.
  destruct (ev !! "chunk"%string) as [chunk|] eqn:Hc.
  - unfold getitem.
    destruct (chunk !! "bytes"%string) as [[b|s]|] eqn:Hb; simpl.
    + destruct (utf8_decode b) as [text|] eqn:Hd.
      * left. exists text, chunk, b. auto.
      * right. eexists. split; [reflexivity|].
        eapply cause_not_utf8; eauto.
    + right. eexists. split; [reflexivity|].
      eapply cause_not_bytes; eauto.
    + right. eexists. split; [reflexivity|].
      eapply cause_no_bytes; eauto.
  - right. eexists. split; [reflexivity|]. apply cause_no_chunk. exact Hc.
Qed.

(** The outcome of [process_response] on a stream that is not empty. *)
Lemma process_response_cons (i : item) (rest : event_stream) :
  (exists text ev (chunk : payload) b,
      i = Yield ev
      /\ process_response {| completion := i :: rest |}
         = (Returned (Some text), rest)
      /\ ev !! "chunk"%string = Some chunk
      /\ chunk !! "bytes"%string = Some (VBytes b)
      /\ utf8_decode b = Some text)
  \/ (exists cause,
         process_response {| completion := i :: rest |}
         = (Raised (PyException unexpected_event (ArgExn cause)), rest)
         /\ extraction_cause i cause).
Proof.
  unfold process_response; simpl. destruct i as [ev|e].
  - destruct (process_response_body_cases ev)
      as [(text & chunk & b & E & Hc & Hb & Hd) | (e & E & Hcause)];
      rewrite E.
    + left. exists text, ev, chunk, b. auto.
    + right. exists e. auto.
  - right. exists e. split; [reflexivity|constructor].
Qed.

(** X1: on a stream that is not empty, [process_response] takes one step
    of the iterator and no more, and its outcome is the one it has on the
    stream cut after that step: a second chunk is never read and never
    part of the text. *)
Theorem process_response_first_item_only (i : item) (rest : event_stream) :
  process_response {| completion := i :: rest |}
  = (fst (process_response {| completion := [i] |}), rest).
Proof.
  destruct (process_response_cons i rest)
    as [(text & ev & chunk & b & _ & E & _) | (cause & E & _)];
    destruct (process_response_cons i [])
      as [(text' & ev' & chunk' & b' & _ & E' & _) | (cause' & E' & _)];
    rewrite E, E'; simpl.
  all: unfold process_response in E, E'; simpl in E, E'.
  all: destruct i as [ev0|e0]; simpl in E, E';
    try destruct (process_response_body ev0) as [[|a]|e1];
    congruence.
Qed.

(** X2: when [process_response] returns, it returns [None] only for the
    empty stream, and a text only when the first event holds a chunk
    whose bytes are valid UTF-8 and decode to that text. *)
Theorem process_response_returns_inv (r : response) (v : option str) :
  fst (process_response r) = Returned v ->
  match v with
  | None => completion r = []
  | Some text =>
    exists ev (chunk : payload) b rest,
      completion r = Yield ev :: rest
      /\ ev !! "chunk"%string = Some chunk
      /\ chunk !! "bytes"%string = Some (VBytes b)
      /\ utf8_decode b = Some text
  end.
Proof.
  destruct r as [[|i rest]].
  - intros [= <-]. reflexivity.
  - destruct (process_response_cons i rest)
      as [(text & ev & chunk & b & -> & E & Hc & Hb & Hd) | (cause & E & _)];
      rewrite E; simpl; [|discriminate].
    intros [= <-]. exists ev, chunk, b, rest. auto.
Qed.

(** X3: [process_response] raises exactly when the stream is not empty
    and its first step fails: the stream itself raises, the event has no
    chunk, the chunk has no bytes, the bytes are not a bytes object, or
    they are not valid UTF-8.  What it raises is always the "unexpected
    event." exception around that cause. *)
Theorem process_response_raises_iff (r : response) (e : exn) :
  fst (process_response r) = Raised e
  <-> exists i rest cause,
        completion r = i :: rest
        /\ extraction_cause i cause
        /\ e = PyException unexpected_event (ArgExn cause).
Proof.
  destruct r as [[|i rest]]; simpl.
  - split; [discriminate|]. intros (i & rest & cause & [=] & _).
  - destruct (process_response_cons i rest)
      as [(text & ev & chunk & b & -> & E & Hc & Hb & Hd) | (cause & E & Hcause)];
      rewrite E; simpl.
    + split; [discriminate|].
      intros (i & rest' & cause & [= <- <-] & Hcause & _).
      inversion Hcause; congruence.
    + split.
      * intros [= <-]. exists i, rest, cause. auto.
      * intros (i' & rest' & cause' & [= <- <-] & Hcause' & ->).
        f_equal. f_equal. f_equal.
        destruct Hcause; inversion Hcause'; congruence.
Qed.

(** ** More on the agent invoker *)

(** The trace of [generate_response]. *)
Lemma generate_response_trace
  (w : World Client) (c : Client) (prompt aid alias sid : str) :
  fst (generate_response py_str w c prompt aid alias sid)
  = [InvokeAgent aid alias sid prompt].
Proof.
  unfold generate_response, call_invoke_agent, try_except, bind, lift, ret.
  destruct (invoke_agent w c aid alias sid prompt) as [resp|e].
  - destruct (fst (process_response resp)) as [v|e]; simpl; [reflexivity|].
    destruct (generate_response_except_returns e) as [s ->]. reflexivity.
  - destruct (generate_response_except_returns e) as [s ->]. reflexivity.
Qed.

(** X4: whatever the service and the stream do, [generate_response]
    calls the agent once and only once, with the agent identifier, the
    alias, the session identifier and the prompt, in this order; it never
    asks boto3 for a client and never lists agents. *)
Theorem generate_response_one_call
  (w : World Client) (c : Client) (prompt aid alias sid : str) :
  invocations (fst (generate_response py_str w c prompt aid alias sid))
  = [(aid, alias, sid, prompt)]
  /\ sources_tried (fst (generate_response py_str w c prompt aid alias sid)) = []
  /\ probes (fst (generate_response py_str w c prompt aid alias sid)) = [].
Proof. rewrite generate_response_trace. repeat split. Qed.

Lemma generate_response_except_nonempty (e : exn) :
  exists ch text, generate_response_except py_str e = ([], Returned (ch :: text)).
Proof.
  destruct e; simpl; try (eexists _, _; reflexivity).
  repeat match goal with |- context [if ?c then _ else _] => destruct c end;
    eexists _, _; reflexivity.
Qed.

(** X5: the string [generate_response] returns is never empty: it is a
    text of at least one character from the agent, "No response
    received", or one of the error messages. *)
Theorem generate_response_nonempty
  (w : World Client) (c : Client) (prompt aid alias sid : str) :
  exists ch text,
    snd (generate_response py_str w c prompt aid alias sid)
    = Returned (ch :: text).
Proof.
  unfold generate_response, call_invoke_agent, try_except, bind, lift, ret.
  destruct (invoke_agent w c aid alias sid prompt) as [resp|e].
  - destruct (fst (process_response resp)) as [[[|ch text]|]|e]; simpl;
      try (eexists _, _; reflexivity).
    destruct (generate_response_except_nonempty e) as (ch & text & ->).
    eexists _, _; reflexivity.
  - destruct (generate_response_except_nonempty e) as (ch & text & ->).
    eexists _, _; reflexivity.
Qed.

(** X6: when the call succeeds and the extraction fails,
    [generate_response] returns the unexpected-error message around the
    text of the extraction's exception, whatever the cause: a service
    error that arrives inside the stream is reported this way too, not by
    its error code. *)
Theorem generate_response_extraction_failure
  (w : World Client) (c : Client) (prompt aid alias sid : str)
  (resp : response) (e : exn) :
  invoke_agent w c aid alias sid prompt = Returned resp ->
  fst (process_response resp) = Raised e ->
  generate_response py_str w c prompt aid alias sid
  = ([InvokeAgent aid alias sid prompt], Returned (msg_unexpected (py_str e))).
Proof.
  intros Hi He.
  unfold generate_response, call_invoke_agent, try_except, bind, lift, ret.
  rewrite Hi, He. simpl.
  destruct resp as [[|i rest]]; [discriminate|].
  destruct (process_response_cons i rest)
    as [(text & ev & chunk & b & _ & E & _) | (cause & E & _)];
    rewrite E in He; simpl in He; [discriminate|].
  injection He as <-. reflexivity.
Qed.

(** X7: when the first event holds a chunk whose bytes decode to a text
    that is not empty, [generate_response] returns that text, whatever
    follows in the stream. *)
Theorem generate_response_first_chunk_text
  (w : World Client) (c : Client) (prompt aid alias sid : str)
  (ev : event) (chunk : payload) (b : bytes) (rest : event_stream)
  (ch : N) (text : str) :
  invoke_agent w c aid alias sid prompt
  = Returned {| completion := Yield ev :: rest |} ->
  ev !! "chunk"%string = Some chunk ->
  chunk !! "bytes"%string = Some (VBytes b) ->
  utf8_decode b = Some (ch :: text) ->
  generate_response py_str w c prompt aid alias sid
  = ([InvokeAgent aid alias sid prompt], Returned (ch :: text)).
Proof.
  intros Hi Hc Hb Hd.
  unfold generate_response, call_invoke_agent, try_except, bind, lift, ret.
  rewrite Hi. unfold process_response; simpl.
  unfold process_response_body. rewrite Hc. unfold getitem. rewrite Hb.
  simpl. rewrite Hd. reflexivity.
Qed.

(** ** More on credential resolution *)

(** The whole of [initialize_aws_client]: the traces of the three blocks
    one after the other, as far as control goes, and the first client
    found. *)
Lemma initialize_aws_client_unfold (w : World Client) :
  initialize_aws_client py_str w
  = (fst (method_secrets py_str w)
     ++ match secrets_attempt w with
        | Some _ => []
        | None =>
          fst (method_environ py_str w)
          ++ match environ_attempt w with
             | Some _ => []
             | None => fst (method_default py_str w)
             end
        end,
     Returned (resolve w)).
Proof.
  destruct (method_secrets_spec w) as (t1 & E1 & _).
  destruct (method_environ_spec w) as (t2 & E2 & _).
  destruct (method_default_spec w) as (t3 & E3 & _).
  unfold initialize_aws_client, resolve, bind, ret. rewrite E1. simpl.
  destruct (secrets_attempt w) as [c1|]; simpl; [reflexivity|].
  rewrite E2. simpl.
  destruct (environ_attempt w) as [c2|]; simpl.
  - rewrite app_nil_r. reflexivity.
  - rewrite E3. reflexivity.
Qed.

(** What the first block shows and asks for. *)
Lemma method_secrets_trace (w : World Client) :
  errors (fst (method_secrets py_str w)) = []
  /\ length (successes (fst (method_secrets py_str w)))
     = match secrets_attempt w with Some _ => 1%nat | None => 0%nat end
  /\ (length (warnings (fst (method_secrets py_str w))) <= 1)%nat
  /\ (forall src k s tok,
        Boto3Client src k s tok ∈ fst (method_secrets py_str w) ->
        src = FromSecrets
        /\ exists m, st_secrets w = Some (SecretsLoaded m)
                     /\ k = m !! "AWS_ACCESS_KEY_ID"%string
                     /\ is_Some k
                     /\ s = m !! "AWS_SECRET_ACCESS_KEY"%string
                     /\ is_Some s
                     /\ tok = m !! "AWS_SESSION_TOKEN"%string).
Proof.
  unfold secrets_attempt. run_monad.
  destruct (st_secrets w) as [[e|m]|]; simpl.
  1,3: split; [|split; [|split]]; auto; intros src k s tok H;
       repeat (apply elem_of_cons in H as [H|H]; [discriminate|]);
       inversion H.
  destruct (m !! "AWS_ACCESS_KEY_ID"%string) as [key|] eqn:Hk; simpl.
  2: { split; [|split; [|split]]; auto. intros src k s tok H. inversion H. }
  destruct (m !! "AWS_SECRET_ACCESS_KEY"%string) as [secret|] eqn:Hs; simpl.
  2: { split; [|split; [|split]]; auto. intros src k s tok H.
       apply list_elem_of_singleton in H. discriminate. }
  destruct (boto3_client w FromSecrets (Some key) (Some secret)
              (m !! "AWS_SESSION_TOKEN"%string)) as [c|e]; simpl.
  all: split; [|split; [|split]]; auto; intros src k s tok H;
    apply elem_of_cons in H as [H|H];
    [ injection H as -> -> -> ->; split; [reflexivity|];
      exists m; rewrite Hk, Hs; eauto 10
    | apply list_elem_of_singleton in H; discriminate ].
Qed.

(** What the second block shows and asks for. *)
Lemma method_environ_trace (w : World Client) :
  errors (fst (method_environ py_str w)) = []
  /\ length (successes (fst (method_environ py_str w)))
     = match environ_attempt w with Some _ => 1%nat | None => 0%nat end
  /\ (length (warnings (fst (method_environ py_str w))) <= 1)%nat
  /\ (forall src k s tok,
        Boto3Client src k s tok ∈ fst (method_environ py_str w) ->
        src = FromEnviron
        /\ truthy k = true
        /\ k = environ w !! "AWS_ACCESS_KEY_ID"%string
        /\ s = environ w !! "AWS_SECRET_ACCESS_KEY"%string
        /\ tok = environ w !! "AWS_SESSION_TOKEN"%string).
Proof.
  unfold environ_attempt. run_monad.
  destruct (truthy (environ w !! "AWS_ACCESS_KEY_ID"%string)) eqn:T; simpl.
  2: { split; [|split; [|split]]; auto. intros src k s tok H. inversion H. }
  destruct (boto3_client w FromEnviron _ _ _) as [c|e]; simpl.
  all: split; [|split; [|split]]; auto; intros src k s tok H;
    apply elem_of_cons in H as [H|H];
    [ injection H as -> -> -> ->; auto
    | apply list_elem_of_singleton in H; discriminate ].
Qed.

(** What the third block shows and asks for. *)
Lemma method_default_trace (w : World Client) :
  length (errors (fst (method_default py_str w)))
  = match default_attempt w with Some _ => 0%nat | None => 1%nat end
  /\ length (successes (fst (method_default py_str w)))
     = match default_attempt w with Some _ => 1%nat | None => 0%nat end
  /\ warnings (fst (method_default py_str w)) = []
  /\ (forall src k s tok,
        Boto3Client src k s tok ∈ fst (method_default py_str w) ->
        src = FromDefault /\ k = None /\ s = None /\ tok = None).
Proof.
  unfold default_attempt. run_monad.
  destruct (boto3_client w FromDefault None None None) as [c|e]; simpl.
  - destruct (list_agents w c 1) as [[]|e]; simpl.
    all: split; [|split; [|split]]; auto; intros src k s tok H;
      apply elem_of_cons in H as [H|H];
      [ injection H as -> -> -> ->; auto
      | repeat (apply elem_of_cons in H as [H|H]; [discriminate|]);
        inversion H ].
  - split; [|split; [|split]]; auto. intros src k s tok H.
    apply elem_of_cons in H as [H|H];
      [ injection H as -> -> -> ->; auto
      | apply list_elem_of_singleton in H; discriminate ].
Qed.

Lemma successes_app (t1 t2 : list effect) :
  successes (t1 ++ t2) = successes t1 ++ successes t2.
Proof. apply omap_app. Qed.

Lemma warnings_app (t1 t2 : list effect) :
  warnings (t1 ++ t2) = warnings t1 ++ warnings t2.
Proof. apply omap_app. Qed.

Lemma errors_app (t1 t2 : list effect) :
  errors (t1 ++ t2) = errors t1 ++ errors t2.
Proof. apply omap_app. Qed.

(** X8: the status boxes tell the result: when a client is returned the
    run shows one success box and no error box, when none is returned it
    shows one error box and no success box; a run shows two warnings at
    most. *)
Theorem initialize_aws_client_boxes (w : World Client) :
  let t := fst (initialize_aws_client py_str w) in
  match snd (initialize_aws_client py_str w) with
  | Returned (Some _) => length (successes t) = 1%nat /\ errors t = []
  | Returned None => successes t = [] /\ length (errors t) = 1%nat
  | Raised _ => False
  end
  /\ (length (warnings t) <= 2)%nat.
Proof.
  rewrite initialize_aws_client_unfold. cbn [fst snd]. cbv zeta.
  destruct (method_secrets_trace w) as (E1 & S1 & W1 & _).
  destruct (method_environ_trace w) as (E2 & S2 & W2 & _).
  destruct (method_default_trace w) as (E3 & S3 & W3 & _).
  unfold resolve. revert S1 S2 S3 E3.
  destruct (secrets_attempt w) as [c1|];
    [|destruct (environ_attempt w) as [c2|];
      [|destruct (default_attempt w) as [c3|]]];
    intros S1 S2 S3 E3.
  all: rewrite ?app_nil_r, ?successes_app, ?errors_app, ?warnings_app.
  all: rewrite ?E1, ?E2, ?W3; simpl.
  all: split; [split|rewrite ?length_app; simpl; lia].
  all: try (apply nil_length_inv).
  all: rewrite ?length_app; simpl; lia.
Qed.

(** X9: a client is never built from credentials of two places: a call
    for the secret store takes its three arguments from the store and
    needs both keys there, a call for the environment takes them from
    the environment variables and needs a non-empty access key, and the
    default call passes none. *)
Theorem initialize_aws_client_credentials
  (w : World Client) (src : source) (k s tok : option str) :
  Boto3Client src k s tok ∈ fst (initialize_aws_client py_str w) ->
  match src with
  | FromSecrets =>
    exists m, st_secrets w = Some (SecretsLoaded m)
              /\ k = m !! "AWS_ACCESS_KEY_ID"%string /\ is_Some k
              /\ s = m !! "AWS_SECRET_ACCESS_KEY"%string /\ is_Some s
              /\ tok = m !! "AWS_SESSION_TOKEN"%string
  | FromEnviron =>
    truthy k = true
    /\ k = environ w !! "AWS_ACCESS_KEY_ID"%string
    /\ s = environ w !! "AWS_SECRET_ACCESS_KEY"%string
    /\ tok = environ w !! "AWS_SESSION_TOKEN"%string
  | FromDefault => k = None /\ s = None /\ tok = None
  end.
Proof.
  rewrite initialize_aws_client_unfold. simpl.
  destruct (method_secrets_trace w) as (_ & _ & _ & B1).
  destruct (method_environ_trace w) as (_ & _ & _ & B2).
  destruct (method_default_trace w) as (_ & _ & _ & B3).
  intros H. apply elem_of_app in H as [H|H].
  { apply B1 in H as [-> H]. exact H. }
  destruct (secrets_attempt w); [inversion H|].
  apply elem_of_app in H as [H|H].
  { apply B2 in H as [-> H]. exact H. }
  destruct (environ_attempt w); [inversion H|].
  apply B3 in H as [-> H]. exact H.
Qed.

(** X10: a secret store that has the access key and lacks the secret key
    gives no client and asks boto3 for none: the missing key is reported
    in a warning and resolution goes on with the environment variables
    and the default credentials. *)
Theorem partial_secrets_fall_through (w : World Client) (m : gmap string str) :
  st_secrets w = Some (SecretsLoaded m) ->
  is_Some (m !! "AWS_ACCESS_KEY_ID"%string) ->
  m !! "AWS_SECRET_ACCESS_KEY"%string = None ->
  exists t,
    fst (initialize_aws_client py_str w)
    = (StWarning (lit "Streamlit secrets method failed: "
                  ++ py_str (KeyError "AWS_SECRET_ACCESS_KEY")) :: t)
    /\ (FromSecrets ∉ sources_tried (fst (initialize_aws_client py_str w)))
    /\ snd (initialize_aws_client py_str w)
       = Returned (match environ_attempt w with
                   | Some c => Some c
                   | None => default_attempt w
                   end).
Proof.
  intros Hs [key Hk] Hn.
  assert (A : secrets_attempt w = None).
  { unfold secrets_attempt. rewrite Hs, Hk, Hn. reflexivity. }
  assert (T : fst (method_secrets py_str w)
              = [StWarning (lit "Streamlit secrets method failed: "
                            ++ py_str (KeyError "AWS_SECRET_ACCESS_KEY"))]).
  { run_monad. rewrite Hs. simpl. rewrite Hk. simpl. rewrite Hn. reflexivity. }
  rewrite initialize_aws_client_unfold. simpl. unfold resolve.
  rewrite A, T. simpl.
  eexists. split; [reflexivity|]. split; [|reflexivity].
  destruct (method_environ_spec w) as (t2 & E2 & _ & S2).
  destruct (method_default_spec w) as (t3 & E3 & S3 & _).
  rewrite E2, E3. simpl.
  destruct (environ_attempt w);
    rewrite ?app_nil_r, ?sources_tried_app, ?S2, ?S3;
    destruct (truthy (environ w !! "AWS_ACCESS_KEY_ID"%string)); simpl;
    intros H;
    repeat (apply elem_of_cons in H as [H|H]; [discriminate|]);
    inversion H.
Qed.

(** X11: an access key that is missing from the environment or set to
    the empty string there makes the environment no source at all: no
    client is asked for with environment credentials, and no warning
    speaks of the environment. *)
Theorem empty_environ_key_skipped (w : World Client) :
  truthy (environ w !! "AWS_ACCESS_KEY_ID"%string) = false ->
  fst (method_environ py_str w) = []
  /\ FromEnviron ∉ sources_tried (fst (initialize_aws_client py_str w)).
Proof.
  intros T.
  assert (E : method_environ py_str w = ([], Returned Next)).
  { run_monad. rewrite T. reflexivity. }
  split; [rewrite E; reflexivity|].
  rewrite initialize_aws_client_unfold. simpl. rewrite E. simpl.
  destruct (method_secrets_spec w) as (t1 & E1 & _ & S1 & _).
  destruct (method_default_spec w) as (t3 & E3 & S3 & _).
  rewrite E1, E3. simpl. rewrite sources_tried_app.
  intros H. apply elem_of_app in H as [H|H].
  - destruct S1 as [S1|S1]; rewrite S1 in H;
      repeat (apply elem_of_cons in H as [H|H]; [discriminate|]);
      inversion H.
  - destruct (secrets_attempt w); [inversion H|].
    destruct (environ_attempt w); [inversion H|].
    rewrite S3 in H.
    repeat (apply elem_of_cons in H as [H|H]; [discriminate|]);
    inversion H.
Qed.

(** ** More on the session *)

(** A run that gets past the sidebar: what it does is what the chat page
    does. *)
Lemma script_pass_chat (w : World Client) (ev : ui_event) (s : SessionState Client) :
  aws_status py_str w ev s = (s, [], None) ->
  ev <> PressNewSession -> ev <> PressClearChat ->
  script_pass py_str w ev s
  = match chat_page py_str w ev s with
    | (s', t, Some e) =>
      {| state_after := s'; effects := t; ending_of := e; offered := None |}
    | (s', t, None) =>
      {| state_after := s'; effects := t; ending_of := Completed;
         offered := export_chat w s' |}
    end.
Proof.
  intros A H1 H2.
  destruct ev; try congruence;
    unfold script_pass, then_, new_session_button, clear_chat_button, continue;
    rewrite A;
    destruct (chat_page _ _ _ _) as [[s' t] [e|]]; reflexivity.
Qed.

(** The chat page without a submitted prompt changes nothing and calls
    nothing; it stops or runs to the end. *)
Lemma chat_page_quiet (w : World Client) (ev : ui_event) (s : SessionState Client) :
  (forall prompt, ev <> SubmitPrompt prompt) ->
  chat_page py_str w ev s = (s, [], Some Stopped)
  \/ chat_page py_str w ev s = (s, [], None).
Proof.
  intros H. unfold chat_page, chat_input, continue.
  destruct (client_initialized s); simpl; [|auto].
  destruct (client s) as [c|]; [|auto].
  destruct (get_agent_config w) as [[[|a aid]|] [[|b alias]|]]; auto.
  destruct ev; auto. specialize (H prompt). congruence.
Qed.

(** An action that the sidebar lets through and that is no prompt leaves
    the session as it is. *)
Lemma interact_quiet (w : World Client) (ev : ui_event) (s : SessionState Client) :
  aws_status py_str w ev s = (s, [], None) ->
  ev <> PressNewSession -> ev <> PressClearChat ->
  (forall prompt, ev <> SubmitPrompt prompt) ->
  interact py_str w ev s = s /\ effects (script_pass py_str w ev s) = [].
Proof.
  intros A H1 H2 H3. unfold interact.
  rewrite (script_pass_chat w ev s A H1 H2).
  destruct (chat_page_quiet w ev s H3) as [-> | ->]; simpl; auto.
Qed.

(** The run of the Initialize button in a session not yet initialized. *)
Lemma script_pass_initialize (w : World Client) (s : SessionState Client) :
  client_initialized s = false ->
  script_pass py_str w PressInitialize s
  = {| state_after := set_client_initialized true (set_client (resolve w) s);
       effects := fst (initialize_aws_client py_str w);
       ending_of := Rerun; offered := None |}.
Proof.
  intros Hi.
  unfold script_pass, then_, new_session_button, aws_status, continue.
  rewrite Hi. simpl. rewrite initialize_aws_client_unfold. reflexivity.
Qed.

(** The run of the Retry button in a session without a client. *)
Lemma script_pass_retry (w : World Client) (s : SessionState Client) :
  client_initialized s = true -> client s = None ->
  script_pass py_str w PressRetry s
  = {| state_after := set_client (resolve w) s;
       effects := fst (initialize_aws_client py_str w);
       ending_of := Rerun; offered := None |}.
Proof.
  intros Hi Hc.
  unfold script_pass, then_, new_session_button, aws_status, continue.
  rewrite Hi, Hc. simpl. rewrite initialize_aws_client_unfold. reflexivity.
Qed.

(** A submitted prompt: the chat page stops, lets an empty prompt pass,
    or makes the call and appends prompt and reply. *)
Lemma chat_page_submit (w : World Client) (prompt : str) (s : SessionState Client) :
  chat_page py_str w (SubmitPrompt prompt) s = (s, [], Some Stopped)
  \/ (prompt = [] /\ chat_page py_str w (SubmitPrompt prompt) s = (s, [], None))
  \/ (exists c aid alias reply,
         client_initialized s = true /\ client s = Some c
         /\ get_agent_config w = (Some aid, Some alias)
         /\ truthy (Some aid) = true /\ truthy (Some alias) = true
         /\ truthy (Some prompt) = true
         /\ generate_response py_str w c prompt aid alias (session_id s)
            = ([InvokeAgent aid alias (session_id s) prompt], Returned reply)
         /\ chat_page py_str w (SubmitPrompt prompt) s
            = (append_message {| msg_role := assistant; content := reply |}
                 (append_message {| msg_role := user; content := prompt |} s),
               [InvokeAgent aid alias (session_id s) prompt], None)).
Proof.
  unfold chat_page, chat_input, continue.
  destruct (client_initialized s); simpl; [|auto].
  destruct (client s) as [c|]; [|auto].
  destruct (get_agent_config w) as [[[|a aid]|] [[|b alias]|]]; auto.
  destruct prompt as [|ch prompt]; simpl; [auto|].
  right. right.
  pose proof (generate_response_trace w c (ch :: prompt) (a :: aid)
                (b :: alias) (session_id s)) as T.
  destruct (generate_response_never_raises_aux w c (ch :: prompt) (a :: aid)
              (b :: alias) (session_id s)) as (t & reply & E).
  rewrite E in T. simpl in T. subst t.
  exists c, (a :: aid), (b :: alias), reply. rewrite E. auto 10.
Qed.

(** X12: the chat is shut while the client is not initialized, while
    there is no client, or while an agent identifier is missing or
    empty: a submitted prompt then changes nothing, calls nothing, and
    the run ends in [st.stop()] before the export. *)
Theorem chat_blocked (w : World Client) (prompt : str) (s : SessionState Client) :
  client_initialized s = false \/ client s = None
  \/ truthy (fst (get_agent_config w)) = false
  \/ truthy (snd (get_agent_config w)) = false ->
  script_pass py_str w (SubmitPrompt prompt) s
  = {| state_after := s; effects := []; ending_of := Stopped; offered := None |}.
Proof.
  intros H.
  rewrite script_pass_chat
    by (try discriminate; apply aws_status_passes; discriminate).
  destruct (chat_page_submit w prompt s)
    as [-> | [[-> E] | (c & aid & alias & reply & Hi & Hc & Hg & Ta & Tb & _)]];
    [reflexivity| |].
  - revert E. unfold chat_page, chat_input, continue.
    destruct (client_initialized s); simpl; [|discriminate].
    destruct (client s) as [c|]; [|discriminate].
    destruct (get_agent_config w) as [[[|a aid]|] [[|b alias]|]];
      try discriminate.
    simpl in H. destruct H as [H|[H|[H|H]]]; discriminate.
  - rewrite Hg in H. cbn [fst snd] in H.
    destruct H as [H|[H|[H|H]]]; congruence.
Qed.

(** X13: once the session has its client, no action takes it away or
    builds another: after any action the client is the same, the session
    is still initialized, and boto3 was not asked for a client. *)
Theorem ready_preserved (w : World Client) (ev : ui_event) (s : SessionState Client) :
  ready s ->
  client (interact py_str w ev s) = client s
  /\ client_initialized (interact py_str w ev s) = true
  /\ sources_tried (effects (script_pass py_str w ev s)) = [].
Proof.
  intros [Hi [c Hc]].
  assert (A : aws_status py_str w ev s = (s, [], None)).
  { unfold aws_status, continue. rewrite Hi, Hc. reflexivity. }
  destruct ev.
  1,3,4: destruct (interact_quiet w _ s A) as [-> ->];
         try discriminate; auto.
  - unfold interact.
    change (script_pass py_str w PressNewSession s)
      with {| state_after := set_messages [] (set_session_id (uuid4 w) s);
              effects := []; ending_of := Rerun; offered := None |}.
    simpl. rewrite idle_pass. auto.
  - unfold interact.
    replace (script_pass py_str w PressClearChat s)
      with {| state_after := set_messages [] s; effects := @nil effect;
              ending_of := Rerun; offered := None |}.
    2: { unfold script_pass, then_, new_session_button, clear_chat_button,
           continue. rewrite A. reflexivity. }
    simpl. rewrite idle_pass. auto.
  - unfold interact.
    rewrite (script_pass_chat w _ s A) by discriminate.
    destruct (chat_page_submit w prompt s)
      as [-> | [[_ ->] | (c' & aid & alias & reply & _ & _ & _ & _ & _ & _ & _ & ->)]];
      simpl; auto.
Qed.

(** X14: the Initialize button works in a session that is not
    initialized, and only there: it stores what
    [initialize_aws_client] resolves, a client or none, marks the
    session initialized either way, and leaves the identifier and the
    history alone; in an initialized session it does nothing. *)
Theorem initialize_button (w : World Client) (s : SessionState Client) :
  (client_initialized s = false ->
   interact py_str w PressInitialize s
   = {| session_id := session_id s; messages := messages s;
        client_initialized := true; client := resolve w |})
  /\ (client_initialized s = true ->
      interact py_str w PressInitialize s = s
      /\ effects (script_pass py_str w PressInitialize s) = []).
Proof.
  split; intros Hi.
  - unfold interact. rewrite script_pass_initialize by exact Hi.
    simpl. rewrite idle_pass. reflexivity.
  - apply interact_quiet; try discriminate.
    unfold aws_status, continue. rewrite Hi. simpl.
    destruct (client s); reflexivity.
Qed.

(** X15: the Retry button works in a session that is initialized and
    has no client, and only there: it stores what
    [initialize_aws_client] resolves this time and leaves the rest
    alone; in any other session it does nothing. *)
Theorem retry_button (w : World Client) (s : SessionState Client) :
  (client_initialized s = true -> client s = None ->
   interact py_str w PressRetry s
   = {| session_id := session_id s; messages := messages s;
        client_initialized := true; client := resolve w |})
  /\ (client_initialized s = false \/ is_Some (client s) ->
      interact py_str w PressRetry s = s
      /\ effects (script_pass py_str w PressRetry s) = []).
Proof.
  split.
  - intros Hi Hc. unfold interact.
    rewrite script_pass_retry by assumption.
    simpl. rewrite idle_pass. unfold set_client. rewrite Hi. reflexivity.
  - intros H. apply interact_quiet; try discriminate.
    unfold aws_status, continue.
    destruct H as [Hi|[c Hc]].
    + rewrite Hi. reflexivity.
    + rewrite Hc. destruct (client_initialized s); reflexivity.
Qed.

(** The session after an action that is no prompt. *)
Lemma interact_sidebar (w : World Client) (ev : ui_event) (s : SessionState Client) :
  (forall prompt, ev <> SubmitPrompt prompt) ->
  interact py_str w ev s
  = match ev with
    | PressNewSession => set_messages [] (set_session_id (uuid4 w) s)
    | PressClearChat => set_messages [] s
    | PressInitialize =>
      if client_initialized s then s
      else set_client_initialized true (set_client (resolve w) s)
    | PressRetry =>
      if client_initialized s then
        match client s with
        | Some _ => s
        | None => set_client (resolve w) s
        end
      else s
    | _ => s
    end.
Proof.
  intros H. destruct ev.
  - apply interact_quiet; try discriminate. apply aws_status_passes; discriminate.
  - unfold interact.
    change (script_pass py_str w PressNewSession s)
      with {| state_after := set_messages [] (set_session_id (uuid4 w) s);
              effects := []; ending_of := Rerun; offered := None |}.
    simpl. apply idle_pass.
  - destruct (client_initialized s) eqn:Hi.
    + apply interact_quiet; try discriminate.
      unfold aws_status, continue. rewrite Hi. simpl.
      destruct (client s); reflexivity.
    + unfold interact. rewrite script_pass_initialize by exact Hi.
      simpl. apply idle_pass.
  - destruct (client_initialized s) eqn:Hi;
      [destruct (client s) as [c|] eqn:Hc|].
    + apply interact_quiet; try discriminate.
      unfold aws_status, continue. rewrite Hi, Hc. reflexivity.
    + unfold interact. rewrite script_pass_retry by assumption.
      simpl. apply idle_pass.
    + apply interact_quiet; try discriminate.
      unfold aws_status, continue. rewrite Hi. reflexivity.
  - unfold interact.
    replace (script_pass py_str w PressClearChat s)
      with {| state_after := set_messages [] s; effects := @nil effect;
              ending_of := Rerun; offered := None |}.
    2: { unfold script_pass, then_, new_session_button, clear_chat_button,
           continue. rewrite aws_status_passes by discriminate. reflexivity. }
    simpl. apply idle_pass.
  - specialize (H prompt). congruence.
Qed.

(** X16: only New Session changes the session identifier, and only New
    Session, Clear Chat and a submitted prompt change the history. *)
Theorem frame_of_actions (w : World Client) (ev : ui_event) (s : SessionState Client) :
  (ev <> PressNewSession ->
   session_id (interact py_str w ev s) = session_id s)
  /\ (ev = Idle \/ ev = PressInitialize \/ ev = PressRetry ->
      messages (interact py_str w ev s) = messages s).
Proof.
  split.
  - intros Hn. destruct ev; try congruence.
    1-4: rewrite interact_sidebar by discriminate;
         repeat match goal with
                | |- context [if ?b then _ else _] => destruct b
                | |- context [match ?o with Some _ => _ | None => _ end] =>
                    destruct o
                end; reflexivity.
    unfold interact.
    rewrite script_pass_chat
      by (try discriminate; apply aws_status_passes; discriminate).
    destruct (chat_page_submit w prompt s)
      as [-> | [[_ ->] | (c' & aid & alias & reply & _ & _ & _ & _ & _ & _ & _ & ->)]];
      reflexivity.
  - intros H. rewrite interact_sidebar
      by (destruct H as [-> | [-> | ->]]; discriminate).
    destruct H as [-> | [-> | ->]];
      repeat match goal with
             | |- context [if ?b then _ else _] => destruct b
             | |- context [match ?o with Some _ => _ | None => _ end] =>
                 destruct o
             end; reflexivity.
Qed.

(** X17: a prompt submitted to a session that can chat makes one run
    that calls the agent once, with the configured identifiers, the
    session's own identifier and the prompt; the run appends the prompt
    and then the reply to the history, reaches its end, and offers the
    export of the history with both in it. *)
Theorem chat_turn_run
  (w : World Client) (prompt aid alias : str) (c : Client)
  (s : SessionState Client) :
  client_initialized s = true -> client s = Some c ->
  get_agent_config w = (Some aid, Some alias) ->
  truthy (Some aid) = true -> truthy (Some alias) = true ->
  truthy (Some prompt) = true ->
  exists reply,
    snd (generate_response py_str w c prompt aid alias (session_id s))
    = Returned reply
    /\ script_pass py_str w (SubmitPrompt prompt) s
       = {| state_after :=
              set_messages
                (messages s ++ [ {| msg_role := user; content := prompt |};
                                 {| msg_role := assistant; content := reply |} ])
                s;
            effects := [InvokeAgent aid alias (session_id s) prompt];
            ending_of := Completed;
            offered :=
              export_chat w
                (set_messages
                   (messages s ++ [ {| msg_role := user; content := prompt |};
                                    {| msg_role := assistant; content := reply |} ])
                   s) |}.
Proof.
  intros Hi Hc Hg Ta Tb Tp.
  rewrite script_pass_chat
    by (try discriminate; apply aws_status_passes; discriminate).
  destruct (chat_page_submit w prompt s)
    as [E | [[-> _] | (c' & aid' & alias' & reply & _ & Hc' & Hg' & _ & _ & _ & G & ->)]].
  - exfalso. revert E. unfold chat_page, chat_input, continue.
    rewrite Hi, Hc, Hg. simpl.
    destruct aid; [discriminate|]. destruct alias; [discriminate|].
    destruct prompt; [discriminate|].
    destruct (generate_response _ _ _ _ _ _ _) as [t [r|e]]; discriminate.
  - discriminate.
  - rewrite Hc in Hc'. rewrite Hg in Hg'.
    injection Hc' as <-. injection Hg' as <- <-.
    exists reply. rewrite G. split; [reflexivity|].
    unfold append_message, set_messages. simpl.
    rewrite <- !app_assoc. reflexivity.
Qed.

(** X18: when the remote call fails, the session goes on: the message
    documented for the failure is stored as the assistant's reply right
    after the prompt, and the session can still chat. *)
Theorem failed_call_becomes_message
  (w : World Client) (prompt aid alias : str) (c : Client)
  (s : SessionState Client) (e : exn) :
  client_initialized s = true -> client s = Some c ->
  get_agent_config w = (Some aid, Some alias) ->
  truthy (Some aid) = true -> truthy (Some alias) = true ->
  truthy (Some prompt) = true ->
  invoke_agent w c aid alias (session_id s) prompt = Raised e ->
  exists reply,
    documented_message py_str e reply
    /\ messages (interact py_str w (SubmitPrompt prompt) s)
       = messages s ++ [ {| msg_role := user; content := prompt |};
                         {| msg_role := assistant; content := reply |} ]
    /\ ready (interact py_str w (SubmitPrompt prompt) s).
Proof.
  intros Hi Hc Hg Ta Tb Tp He.
  destruct (generate_response_except_documented e) as (reply & Er & Hd).
  assert (G : generate_response py_str w c prompt aid alias (session_id s)
              = ([InvokeAgent aid alias (session_id s) prompt], Returned reply)).
  { unfold generate_response, call_invoke_agent, try_except, bind, lift, ret.
    rewrite He, Er. reflexivity. }
  exists reply. split; [exact Hd|].
  unfold interact.
  rewrite script_pass_chat
    by (try discriminate; apply aws_status_passes; discriminate).
  unfold chat_page, chat_input, continue. rewrite Hi, Hc, Hg. simpl.
  destruct aid; [discriminate|]. destruct alias; [discriminate|].
  destruct prompt; [discriminate|]. simpl. rewrite G. simpl.
  split; [rewrite <- app_assoc; reflexivity|].
  unfold ready. simpl. split; [exact Hi|exists c; exact Hc].
Qed.

(** X19: an empty prompt is no prompt: it changes nothing and calls
    nothing, in any session. *)
Theorem empty_prompt_ignored (w : World Client) (s : SessionState Client) :
  interact py_str w (SubmitPrompt []) s = s
  /\ effects (script_pass py_str w (SubmitPrompt []) s) = [].
Proof.
  unfold interact.
  rewrite script_pass_chat
    by (try discriminate; apply aws_status_passes; discriminate).
  destruct (chat_page_submit w [] s)
    as [-> | [[_ ->] | (c' & aid & alias & reply & _ & _ & _ & _ & _ & T & _)]];
    simpl; auto.
  discriminate.
Qed.

(** X20: an identifier that the secret store holds as an empty string is
    not replaced by the one of the environment: with both keys in the
    store and one of them empty, a submitted prompt is stopped, whatever
    the environment variables say. *)
Theorem empty_secret_blocks_chat
  (w : World Client) (m : gmap string str) (a b : str) (prompt : str)
  (s : SessionState Client) :
  st_secrets w = Some (SecretsLoaded m) ->
  m !! "AGENT_ID"%string = Some a ->
  m !! "AGENT_ALIAS_ID"%string = Some b ->
  a = [] \/ b = [] ->
  get_agent_config w = (Some a, Some b)
  /\ script_pass py_str w (SubmitPrompt prompt) s
     = {| state_after := s; effects := []; ending_of := Stopped;
          offered := None |}.
Proof.
  intros Hs Ha Hb Hab.
  assert (G : get_agent_config w = (Some a, Some b)).
  { unfold get_agent_config, config_try, secrets_getitem, the_secrets,
      getitem, rbind. rewrite Hs, Ha, Hb. reflexivity. }
  split; [exact G|].
  rewrite script_pass_chat
    by (try discriminate; apply aws_status_passes; discriminate).
  unfold chat_page.
  destruct (client_initialized s); simpl; [|reflexivity].
  destruct (client s) as [c|]; [|reflexivity].
  rewrite G. destruct Hab as [-> | ->]; [reflexivity|].
  destruct a; reflexivity.
Qed.

Lemma then_open (a b : stage Client) :
  open_stage a -> open_stage b -> open_stage (then_ a b).
Proof.
  intros Ha Hb s e. unfold then_.
  specialize (Ha s). destruct (a s) as [[s1 t1] [e1|]]; simpl in *.
  - intros [= <-]. apply Ha. reflexivity.
  - specialize (Hb s1). destruct (b s1) as [[s2 t2] o]; simpl in *.
    intros ->. apply Hb. reflexivity.
Qed.

Lemma script_stages_open (w : World Client) (ev : ui_event) :
  open_stage
    (then_ (new_session_button w ev)
       (then_ (aws_status py_str w ev)
          (then_ (clear_chat_button ev) (chat_page py_str w ev)))).
Proof.
  repeat apply then_open; intros s e.
  - unfold new_session_button, continue. destruct ev; simpl; intros [= <-]; auto.
  - unfold aws_status, continue. rewrite initialize_aws_client_unfold.
    destruct (client_initialized s); simpl;
      [destruct (client s)|]; destruct ev; simpl; intros [= <-]; auto.
  - unfold clear_chat_button, continue. destruct ev; simpl; intros [= <-]; auto.
  - destruct ev.
    1-5: match goal with
         | |- context [chat_page _ ?w0 ?ev0 ?s0] =>
           destruct (chat_page_quiet w0 ev0 s0) as [E | E];
             try discriminate; rewrite E; simpl; intros [= <-]; auto
         end.
    destruct (chat_page_submit w prompt s)
      as [E | [[_ E] | (c' & aid & alias & reply & _ & _ & _ & _ & _ & _ & _ & E)]];
      rewrite E; simpl; intros [= <-]; auto.
Qed.

(** X21: a run of the script ends at its last line, in a rerun or in a
    stop, never in an exception: nothing that the credential resolver or
    the agent invoker meets gets past them. *)
Theorem script_never_fails (w : World Client) (ev : ui_event) (s : SessionState Client) :
  ending_of (script_pass py_str w ev s) = Completed
  \/ ending_of (script_pass py_str w ev s) = Rerun
  \/ ending_of (script_pass py_str w ev s) = Stopped.
Proof.
  unfold script_pass.
  pose proof (script_stages_open w ev s) as H.
  destruct (then_ _ _ s) as [[s' t] [e|]]; simpl in *; [|auto].
  destruct (H e eq_refl) as [-> | ->]; auto.
Qed.

(** X22: the download is offered exactly by the runs that reach their
    last line with a history that is not empty; a run that stops or asks
    for a rerun offers none. *)
Theorem export_offered_iff (w : World Client) (ev : ui_event) (s : SessionState Client) :
  is_Some (offered (script_pass py_str w ev s))
  <-> ending_of (script_pass py_str w ev s) = Completed
      /\ messages (state_after (script_pass py_str w ev s)) <> [].
Proof.
  unfold script_pass.
  pose proof (script_stages_open w ev s) as H.
  destruct (then_ _ _ s) as [[s' t] [e|]]; simpl in *.
  - split; [intros [d [=]]|].
    intros [-> _]. destruct (H Completed eq_refl); discriminate.
  - unfold export_chat. destruct (messages s'); simpl.
    + split; [intros [d [=]]|intros [_ N]; contradiction].
    + split; [intros _; split; [reflexivity|discriminate]|eauto].
Qed.

Lemma filter_user_transcript (l : list (str * str)) :
  length (List.filter is_user (transcript l)) = length l.
Proof. induction l as [|x l IH]; simpl; [reflexivity|]. rewrite IH. reflexivity. Qed.

(** X23: the two counters of the page follow the conversation: each turn
    that reaches the invoker adds two to Messages and one to User
    Messages. *)
Theorem metrics_after_conversation
  (turns : list (World Client * str)) (s : SessionState Client) :
  ready s -> Forall reaches_invoker turns ->
  metric_messages (converse py_str turns s)
  = (metric_messages s + 2 * length turns)%nat
  /\ metric_user_messages (converse py_str turns s)
     = (metric_user_messages s + length turns)%nat.
Proof.
  intros Hs Hall.
  destruct (converse_transcript turns s Hs Hall) as (replies & Hlen & E & _).
  unfold metric_messages, metric_user_messages. rewrite E.
  rewrite length_app, transcript_length, List.filter_app, length_app,
    filter_user_transcript, length_zip, length_map.
  lia.
Qed.


(** ** More on the export *)

Lemma printable_document_char (c : N) :
  printable c = true -> document_char c = true.
Proof. unfold document_char. intros ->. reflexivity. Qed.

Lemma hex_digit_printable (n : N) : printable (hex_digit n) = true.
Proof.
  unfold hex_digit, printable.
  pose proof (N.mod_upper_bound n 16 ltac:(discriminate)) as H.
  revert H. generalize (n mod 16). intros r H. cbv zeta.
  destruct (r <? 10) eqn:E;
    apply andb_true_iff; split; apply N.leb_le;
    try apply N.ltb_lt in E; try apply N.ltb_ge in E; lia.
Qed.

Lemma u_escape_text (n : N) : document_text (u_escape n).
Proof.
  unfold u_escape. change (lit "\u") with [92; 117].
  repeat constructor; apply printable_document_char, hex_digit_printable.
Qed.

Lemma escape_char_text (c : N) : document_text (escape_char c).
Proof.
  unfold escape_char.
  repeat match goal with
         | |- context [if ?b then _ else _] => destruct b eqn:?
         end;
    try (repeat constructor; fail);
    try apply u_escape_text.
  - constructor; [|constructor]. apply printable_document_char. assumption.
  - apply Forall_app. split; apply u_escape_text.
Qed.

Lemma encode_string_text (s : str) : document_text (encode_string s).
Proof.
  unfold encode_string. constructor; [reflexivity|].
  apply Forall_app. split; [|repeat constructor].
  induction s as [|c s IH]; simpl; [constructor|].
  apply Forall_app. split; [apply escape_char_text|exact IH].
Qed.

Lemma newline_indent_text (level : nat) : document_text (newline_indent level).
Proof.
  unfold newline_indent. constructor; [reflexivity|].
  induction (2 * level)%nat; simpl; constructor; auto.
Qed.

Lemma join_text (sep : str) (parts : list str) :
  document_text sep -> Forall document_text parts ->
  document_text (join sep parts).
Proof.
  intros Hsep Hparts. induction Hparts as [|x l Hx Hl IH]; simpl.
  - constructor.
  - destruct l as [|y l']; [exact Hx|].
    apply Forall_app. split; [exact Hx|].
    apply Forall_app. split; [exact Hsep|exact IH].
Qed.

Lemma lit_text_comma_newline (level : nat) :
  document_text (lit "," ++ newline_indent level).
Proof.
  apply Forall_app. split; [repeat constructor|apply newline_indent_text].
Qed.

(** Whatever the value, [json.dumps] writes printable ASCII and line
    breaks only. *)
Lemma dumps_at_text (j : json) : forall level, document_text (dumps_at level j).
Proof.
  induction j as [s|items IH|members IH] using json_nested_ind; intros level.
  - apply encode_string_text.
  - destruct items as [|x xs]; [repeat constructor|].
    cbn [dumps_at].
    apply Forall_app. split; [repeat constructor|].
    apply Forall_app. split; [apply newline_indent_text|].
    apply Forall_app. split; [|apply Forall_app; split;
                                [apply newline_indent_text|repeat constructor]].
    apply join_text; [apply lit_text_comma_newline|].
    apply List.Forall_forall. intros t Ht.
    apply in_map_iff in Ht as (y & <- & Hy).
    rewrite List.Forall_forall in IH. apply IH. exact Hy.
  - destruct members as [|x xs]; [repeat constructor|].
    cbn [dumps_at].
    apply Forall_app. split; [repeat constructor|].
    apply Forall_app. split; [apply newline_indent_text|].
    apply Forall_app. split; [|apply Forall_app; split;
                                [apply newline_indent_text|repeat constructor]].
    apply join_text; [apply lit_text_comma_newline|].
    apply List.Forall_forall. intros t Ht.
    apply in_map_iff in Ht as ([k v] & <- & Hy).
    apply Forall_app. split; [apply encode_string_text|].
    apply Forall_app. split; [repeat constructor|].
    rewrite List.Forall_forall in IH. apply (IH (k, v)). exact Hy.
Qed.

(** X24: the exported document is made of printable ASCII characters
    and line breaks only, whatever characters the session identifier and
    the messages hold. *)
Theorem export_is_ascii (w : World Client) (s : SessionState Client) (d : download) :
  export_chat w s = Some d ->
  document_text (data d).
Proof.
  unfold export_chat. destruct (messages s); [discriminate|].
  intros [= <-]. simpl. apply dumps_at_text.
Qed.

End Properties.



(** ** The theorems at sample inputs *)

(** The text of an export, character by character: what
    [json.dumps(chat_export, indent=2)] prints for one message. *)
Example export_text_sample :
  let q := fun t : string => quote :: lit t ++ [quote] in
  (fun d => data d) <$>
    export_chat (sample_world (one_chunk hi_there))
      (sample_session [ {| msg_role := user; content := lit "Hello" |} ])
  = Some (lit "{" ++ [10]
          ++ lit "  " ++ q "session_id" ++ lit ": "
          ++ q "0f8fad5b-d9cb-469f-a165-70867728950e" ++ lit "," ++ [10]
          ++ lit "  " ++ q "timestamp" ++ lit ": "
          ++ q "2024-03-09T07:05:01.000042" ++ lit "," ++ [10]
          ++ lit "  " ++ q "messages" ++ lit ": [" ++ [10]
          ++ lit "    {" ++ [10]
          ++ lit "      " ++ q "role" ++ lit ": " ++ q "user" ++ lit "," ++ [10]
          ++ lit "      " ++ q "content" ++ lit ": " ++ q "Hello" ++ [10]
          ++ lit "    }" ++ [10]
          ++ lit "  ]" ++ [10]
          ++ lit "}").
Proof. vm_compute. reflexivity. Qed.

(** The scenario of the specification: the prompt "Hello" answered by one
    chunk with the bytes of "Hi there". *)
Example hello_scenario :
  messages (converse sample_py_str hello_turn (sample_session []))
  = [ {| msg_role := user; content := lit "Hello" |};
      {| msg_role := assistant; content := lit "Hi there" |} ].
Proof. vm_compute. reflexivity. Qed.

(** With no secrets, no environment variables and a failing probe, no
    client is resolved and the three sources were tried as far as they
    go. *)
Example nothing_resolves :
  let w := {| st_secrets := None; environ := ∅;
              boto3_client := fun _ _ _ _ => Returned 1%nat;
              list_agents := fun _ _ => Raised NoCredentialsError;
              invoke_agent := fun _ _ _ _ _ => Raised NoCredentialsError;
              uuid4 := []; now := now environ_world |} in
  snd (initialize_aws_client sample_py_str w) = Returned None
  /\ sources_tried (fst (initialize_aws_client sample_py_str w)) = [FromDefault]
  /\ probes (fst (initialize_aws_client sample_py_str w)) = [1].
Proof. vm_compute. auto. Qed.

Lemma process_response_first_chunk_witness :
  chunk_event hi_there !! "chunk"%string
  = Some ({[ "bytes"%string := VBytes hi_there ]} : payload)
  /\ ({[ "bytes"%string := VBytes hi_there ]} : payload) !! "bytes"%string
     = Some (VBytes hi_there)
  /\ process_response
       {| completion := [Yield (chunk_event hi_there); Yield trace_event] |}
     = (Returned (Some (lit "Hi there")), [Yield trace_event]).
Proof.
  split; [reflexivity|]. split; [reflexivity|].
  exact (process_response_first_chunk (chunk_event hi_there)
           {[ "bytes"%string := VBytes hi_there ]} hi_there
           [Yield trace_event] eq_refl eq_refl).
Defined.

Lemma process_response_first_not_chunk_witness :
  trace_event !! "chunk"%string = None
  /\ exists e,
       process_response
         {| completion := [Yield trace_event; Yield (chunk_event hi_there)] |}
       = (Raised e, [Yield (chunk_event hi_there)])
       /\ e = PyException unexpected_event
                (ArgExn (PyException unexpected_event (ArgEvent trace_event)))
       /\ carried_event e = Some trace_event.
Proof.
  split; [reflexivity|].
  apply (process_response_first_not_chunk trace_event
           [Yield (chunk_event hi_there)]).
  reflexivity.
Defined.


Lemma initialize_aws_client_resolves_witness :
  secrets_attempt environ_world = None
  /\ is_Some (environ_attempt environ_world)
  /\ snd (initialize_aws_client sample_py_str environ_world)
     = Returned (Some 2%nat)
  /\ last (sources_tried (fst (initialize_aws_client sample_py_str environ_world)))
     = Some FromEnviron.
Proof.
  destruct (initialize_aws_client_resolves sample_py_str environ_world)
    as (H1 & _ & _ & H4 & _).
  assert (A1 : secrets_attempt environ_world = None) by reflexivity.
  assert (A2 : is_Some (environ_attempt environ_world)) by (exists 2%nat; reflexivity).
  split; [exact A1|]. split; [exact A2|].
  split; [rewrite H1; reflexivity|].
  exact (proj1 (H4 A1 A2)).
Defined.

Lemma empty_stream_no_response_witness :
  let w := sample_world (Returned {| completion := [] |}) in
  invoke_agent w 3%nat (lit "AGENT1234") (lit "ALIAS1") (lit "sid") (lit "Hello")
  = Returned {| completion := [] |}
  /\ generate_response sample_py_str w 3%nat (lit "Hello") (lit "AGENT1234")
       (lit "ALIAS1") (lit "sid")
     = ([InvokeAgent (lit "AGENT1234") (lit "ALIAS1") (lit "sid") (lit "Hello")],
        Returned (lit "No response received")).
Proof.
  intros w. split; [reflexivity|].
  exact (proj2 (empty_stream_no_response sample_py_str w 3%nat (lit "Hello")
                  (lit "AGENT1234") (lit "ALIAS1") (lit "sid") eq_refl)).
Defined.

Lemma empty_chunk_no_response_witness :
  let w := sample_world (one_chunk []) in
  invoke_agent w 3%nat (lit "AGENT1234") (lit "ALIAS1") (lit "sid") (lit "Hello")
  = one_chunk []
  /\ utf8_decode [] = Some []
  /\ generate_response sample_py_str w 3%nat (lit "Hello") (lit "AGENT1234")
       (lit "ALIAS1") (lit "sid")
     = ([InvokeAgent (lit "AGENT1234") (lit "ALIAS1") (lit "sid") (lit "Hello")],
        Returned (lit "No response received")).
Proof.
  intros w. split; [reflexivity|]. split; [reflexivity|].
  exact (proj2 (empty_chunk_no_response sample_py_str w 3%nat (lit "Hello")
                  (lit "AGENT1234") (lit "ALIAS1") (lit "sid")
                  (chunk_event []) {[ "bytes"%string := VBytes [] ]} [] []
                  eq_refl eq_refl eq_refl eq_refl)).
Defined.

Lemma history_invariant_witness :
  messages (sample_session []) = []
  /\ ready (sample_session [])
  /\ Forall reaches_invoker hello_turn
  /\ length (messages (converse sample_py_str hello_turn (sample_session [])))
     = 2%nat.
Proof.
  assert (R : ready (sample_session []))
    by (split; [reflexivity|exists 3%nat; reflexivity]).
  assert (F : Forall reaches_invoker hello_turn)
    by (repeat constructor).
  split; [reflexivity|]. split; [exact R|]. split; [exact F|].
  exact (proj1 (history_invariant sample_py_str hello_turn (sample_session [])
                  eq_refl R F)).
Defined.

Lemma chat_export_document_witness :
  let s := sample_session
             [ {| msg_role := user; content := lit "Hello" |};
               {| msg_role := assistant; content := [72; 105; 32; 0x1F916; 34] |} ] in
  let w := sample_world (one_chunk hi_there) in
  messages s <> []
  /\ scalar_session s
  /\ datetime_ok (now w)
  /\ exists d,
       export_chat w s = Some d
       /\ json_loads (data d)
          = Some (JObject
                    [(lit "session_id",
                      JString (lit "0f8fad5b-d9cb-469f-a165-70867728950e"));
                     (lit "timestamp", JString (lit "2024-03-09T07:05:01.000042"));
                     (lit "messages",
                      JArray
                        [JObject [(lit "role", JString (lit "user"));
                                  (lit "content", JString (lit "Hello"))];
                         JObject [(lit "role", JString (lit "assistant"));
                                  (lit "content",
                                   JString [72; 105; 32; 0x1F916; 34])]])])
       /\ parse_isoformat (isoformat (now w)) = Some (now w)
       /\ file_name d = lit "chat_0f8fad5b.json"
       /\ mime d = lit "application/json".
Proof.
  intros s w.
  assert (N : messages s <> []) by discriminate.
  assert (S : scalar_session s) by (split; [reflexivity|repeat constructor]).
  assert (T : datetime_ok (now w)) by (vm_compute; intuition discriminate).
  split; [exact N|]. split; [exact S|]. split; [exact T|].
  destruct (chat_export_document sample_py_str w s N)
    as (d & E & _ & Hl & _ & Ht & Hf & Hm & _).
  exists d. split; [exact E|].
  split; [exact (Hl S)|].
  split; [exact (Ht T)|].
  split; [rewrite Hf; reflexivity|exact Hm].
Defined.

Lemma process_response_returns_inv_witness :
  fst (process_response {| completion := [Yield (chunk_event hi_there)] |})
  = Returned (Some (lit "Hi there"))
  /\ exists ev (chunk : payload) b rest,
       [Yield (chunk_event hi_there)] = Yield ev :: rest
       /\ ev !! "chunk"%string = Some chunk
       /\ chunk !! "bytes"%string = Some (VBytes b)
       /\ utf8_decode b = Some (lit "Hi there").
Proof.
  split; [reflexivity|].
  exact (process_response_returns_inv
           {| completion := [Yield (chunk_event hi_there)] |}
           (Some (lit "Hi there")) eq_refl).
Defined.

Lemma process_response_raises_iff_witness :
  let e := PyException unexpected_event
             (ArgExn (PyException unexpected_event (ArgEvent trace_event))) in
  fst (process_response {| completion := [Yield trace_event] |}) = Raised e
  /\ exists i rest cause,
       [Yield trace_event] = i :: rest
       /\ extraction_cause i cause
       /\ e = PyException unexpected_event (ArgExn cause).
Proof.
  intros e. split; [reflexivity|].
  exact (proj1 (process_response_raises_iff
                  {| completion := [Yield trace_event] |} e) eq_refl).
Defined.

Lemma generate_response_extraction_failure_witness :
  let w := sample_world (Returned broken_stream) in
  let e := PyException unexpected_event (ArgExn denied) in
  invoke_agent w 3%nat (lit "AGENT1234") (lit "ALIAS1") (lit "sid") (lit "Hello")
  = Returned broken_stream
  /\ fst (process_response broken_stream) = Raised e
  /\ generate_response sample_py_str w 3%nat (lit "Hello") (lit "AGENT1234")
       (lit "ALIAS1") (lit "sid")
     = ([InvokeAgent (lit "AGENT1234") (lit "ALIAS1") (lit "sid") (lit "Hello")],
        Returned (msg_unexpected (sample_py_str e))).
Proof.
  intros w e. split; [reflexivity|]. split; [reflexivity|].
  exact (generate_response_extraction_failure sample_py_str w 3%nat
           (lit "Hello") (lit "AGENT1234") (lit "ALIAS1") (lit "sid")
           broken_stream e eq_refl eq_refl).
Defined.

Lemma generate_response_first_chunk_text_witness :
  let w := sample_world (Returned two_chunks) in
  invoke_agent w 3%nat (lit "AGENT1234") (lit "ALIAS1") (lit "sid") (lit "Hello")
  = Returned two_chunks
  /\ utf8_decode hi_there = Some (lit "Hi there")
  /\ generate_response sample_py_str w 3%nat (lit "Hello") (lit "AGENT1234")
       (lit "ALIAS1") (lit "sid")
     = ([InvokeAgent (lit "AGENT1234") (lit "ALIAS1") (lit "sid") (lit "Hello")],
        Returned (lit "Hi there")).
Proof.
  intros w. split; [reflexivity|]. split; [reflexivity|].
  exact (generate_response_first_chunk_text sample_py_str w 3%nat
           (lit "Hello") (lit "AGENT1234") (lit "ALIAS1") (lit "sid")
           (chunk_event hi_there) {[ "bytes"%string := VBytes hi_there ]}
           hi_there [Yield (chunk_event hi_there)] 72 (lit "i there")
           eq_refl eq_refl eq_refl eq_refl).
Defined.

Lemma initialize_aws_client_credentials_witness :
  Boto3Client FromEnviron (Some (lit "AKIA")) (Some (lit "shh")) None
  ∈ fst (initialize_aws_client sample_py_str environ_world)
  /\ truthy (Some (lit "AKIA")) = true
  /\ Some (lit "AKIA") = environ environ_world !! "AWS_ACCESS_KEY_ID"%string.
Proof.
  assert (H : Boto3Client FromEnviron (Some (lit "AKIA")) (Some (lit "shh")) None
              ∈ fst (initialize_aws_client sample_py_str environ_world)).
  { apply list_elem_of_In. vm_compute. right. left. reflexivity. }
  split; [exact H|].
  destruct (initialize_aws_client_credentials sample_py_str environ_world
              FromEnviron _ _ _ H) as (T & K & _).
  split; [exact T|exact K].
Defined.

Lemma partial_secrets_fall_through_witness :
  st_secrets partial_secrets_world
  = Some (SecretsLoaded {[ "AWS_ACCESS_KEY_ID"%string := lit "AKIA" ]})
  /\ snd (initialize_aws_client sample_py_str partial_secrets_world)
     = Returned (Some 3%nat).
Proof.
  split; [reflexivity|].
  destruct (partial_secrets_fall_through sample_py_str partial_secrets_world
              {[ "AWS_ACCESS_KEY_ID"%string := lit "AKIA" ]} eq_refl
              (ex_intro _ (lit "AKIA") eq_refl) eq_refl)
    as (t & _ & _ & E).
  rewrite E. reflexivity.
Defined.

Lemma empty_environ_key_skipped_witness :
  truthy (environ empty_key_world !! "AWS_ACCESS_KEY_ID"%string) = false
  /\ fst (method_environ sample_py_str empty_key_world) = []
  /\ FromEnviron ∉ sources_tried
                     (fst (initialize_aws_client sample_py_str empty_key_world)).
Proof.
  split; [reflexivity|].
  exact (empty_environ_key_skipped sample_py_str empty_key_world eq_refl).
Defined.

Lemma chat_blocked_witness :
  let w := sample_world (one_chunk hi_there) in
  client_initialized (fresh_session w) = false
  /\ script_pass sample_py_str w (SubmitPrompt (lit "Hello")) (fresh_session w)
     = {| state_after := fresh_session w; effects := [];
          ending_of := Stopped; offered := None |}.
Proof.
  intros w. split; [reflexivity|].
  apply (chat_blocked sample_py_str w (lit "Hello") (fresh_session w)).
  left. reflexivity.
Defined.

Lemma ready_preserved_witness :
  let w := sample_world (one_chunk hi_there) in
  ready (sample_session [])
  /\ client (interact sample_py_str w PressNewSession (sample_session []))
     = Some 3%nat.
Proof.
  intros w.
  assert (R : ready (sample_session []))
    by (split; [reflexivity|exists 3%nat; reflexivity]).
  split; [exact R|].
  exact (proj1 (ready_preserved sample_py_str w PressNewSession
                  (sample_session []) R)).
Defined.

Lemma initialize_button_witness :
  let w := sample_world (one_chunk hi_there) in
  client_initialized (fresh_session w) = false
  /\ interact sample_py_str w PressInitialize (fresh_session w)
     = {| session_id := uuid4 w; messages := [];
          client_initialized := true; client := resolve w |}.
Proof.
  intros w. split; [reflexivity|].
  exact (proj1 (initialize_button sample_py_str w (fresh_session w)) eq_refl).
Defined.

Lemma retry_button_witness :
  let w := sample_world (one_chunk hi_there) in
  client_initialized failed_session = true
  /\ client failed_session = None
  /\ interact sample_py_str w PressRetry failed_session
     = {| session_id := session_id failed_session; messages := [];
          client_initialized := true; client := resolve w |}.
Proof.
  intros w. split; [reflexivity|]. split; [reflexivity|].
  exact (proj1 (retry_button sample_py_str w failed_session) eq_refl eq_refl).
Defined.

Lemma frame_of_actions_witness :
  let w := sample_world (one_chunk hi_there) in
  PressClearChat <> PressNewSession
  /\ session_id (interact sample_py_str w PressClearChat (sample_session []))
     = session_id (sample_session []).
Proof.
  intros w.
  assert (N : PressClearChat <> PressNewSession) by discriminate.
  split; [exact N|].
  exact (proj1 (frame_of_actions sample_py_str w PressClearChat
                  (sample_session [])) N).
Defined.

Lemma chat_turn_run_witness :
  let w := sample_world (one_chunk hi_there) in
  get_agent_config w = (Some (lit "AGENT1234"), Some (lit "ALIAS1"))
  /\ exists reply,
       snd (generate_response sample_py_str w 3%nat (lit "Hello")
              (lit "AGENT1234") (lit "ALIAS1") (session_id (sample_session [])))
       = Returned reply
       /\ effects (script_pass sample_py_str w (SubmitPrompt (lit "Hello"))
                     (sample_session []))
          = [InvokeAgent (lit "AGENT1234") (lit "ALIAS1")
               (session_id (sample_session [])) (lit "Hello")].
Proof.
  intros w. split; [reflexivity|].
  destruct (chat_turn_run sample_py_str w (lit "Hello") (lit "AGENT1234")
              (lit "ALIAS1") 3%nat (sample_session [])
              eq_refl eq_refl eq_refl eq_refl eq_refl eq_refl)
    as (reply & G & E).
  exists reply. split; [exact G|]. rewrite E. reflexivity.
Defined.

Lemma failed_call_becomes_message_witness :
  let w := sample_world (Raised denied) in
  invoke_agent w 3%nat (lit "AGENT1234") (lit "ALIAS1")
    (session_id (sample_session [])) (lit "Hello")
  = Raised denied
  /\ exists reply,
       documented_message sample_py_str denied reply
       /\ messages (interact sample_py_str w (SubmitPrompt (lit "Hello"))
                      (sample_session []))
          = [ {| msg_role := user; content := lit "Hello" |};
              {| msg_role := assistant; content := reply |} ].
Proof.
  intros w. split; [reflexivity|].
  destruct (failed_call_becomes_message sample_py_str w (lit "Hello")
              (lit "AGENT1234") (lit "ALIAS1") 3%nat (sample_session []) denied
              eq_refl eq_refl eq_refl eq_refl eq_refl eq_refl eq_refl)
    as (reply & D & M & _).
  exists reply. split; [exact D|exact M].
Defined.

Lemma empty_secret_blocks_chat_witness :
  environ empty_id_world !! "AGENT_ID"%string = Some (lit "AGENT1234")
  /\ get_agent_config empty_id_world = (Some [], Some (lit "ALIAS1"))
  /\ ending_of (script_pass sample_py_str empty_id_world
                  (SubmitPrompt (lit "Hello")) (sample_session []))
     = Stopped.
Proof.
  split; [reflexivity|].
  destruct (empty_secret_blocks_chat sample_py_str empty_id_world
              {[ "AGENT_ID"%string := [];
                 "AGENT_ALIAS_ID"%string := lit "ALIAS1" ]}
              [] (lit "ALIAS1") (lit "Hello") (sample_session [])
              eq_refl eq_refl eq_refl (or_introl eq_refl))
    as [G E].
  split; [exact G|]. rewrite E. reflexivity.
Defined.

Lemma export_offered_iff_witness :
  let w := sample_world (one_chunk hi_there) in
  ending_of (script_pass sample_py_str w (SubmitPrompt (lit "Hello"))
               (sample_session []))
  = Completed
  /\ is_Some (offered (script_pass sample_py_str w (SubmitPrompt (lit "Hello"))
                         (sample_session []))).
Proof.
  intros w.
  assert (C : ending_of (script_pass sample_py_str w (SubmitPrompt (lit "Hello"))
                           (sample_session [])) = Completed) by reflexivity.
  split; [exact C|].
  apply (proj2 (export_offered_iff sample_py_str w (SubmitPrompt (lit "Hello"))
                  (sample_session []))).
  split; [exact C|]. intros H. vm_compute in H. discriminate.
Defined.

Lemma metrics_after_conversation_witness :
  ready (sample_session [])
  /\ Forall reaches_invoker hello_turn
  /\ metric_messages (converse sample_py_str hello_turn (sample_session []))
     = 2%nat
  /\ metric_user_messages (converse sample_py_str hello_turn (sample_session []))
     = 1%nat.
Proof.
  assert (R : ready (sample_session []))
    by (split; [reflexivity|exists 3%nat; reflexivity]).
  assert (F : Forall reaches_invoker hello_turn) by (repeat constructor).
  split; [exact R|]. split; [exact F|].
  exact (metrics_after_conversation sample_py_str hello_turn (sample_session [])
           R F).
Defined.

Lemma export_is_ascii_witness :
  let w := sample_world (one_chunk hi_there) in
  let s := sample_session [ {| msg_role := user; content := [0x1F916; 10] |} ] in
  exists d, export_chat w s = Some d /\ document_text (data d).
Proof.
  intros w s. eexists. split; [reflexivity|].
  apply (export_is_ascii w s). reflexivity.
Defined.
